(** * Invoice intake pipeline of [src/main.py]: a shallow embedding

    Python [str] values are lists of Unicode code points ([list N]).  The
    regular expressions of [extract_invoice_data] are embedded as values of a
    small regex syntax and run by a backtracking matcher that follows the
    priority order of Python's [re] engine (ordered alternation, greedy
    repetition, leftmost match for [re.search]).  [float()] is embedded with
    the correctly rounded binary64 conversion of Rocq's [SpecFloat], and
    [datetime.strptime] with the regexes of CPython's [_strptime] module. *)

From Stdlib Require Import List String Ascii NArith ZArith Bool Lia.
From Stdlib Require Import Floats.SpecFloat.
Import ListNotations.
Open Scope N_scope.

(** ** Python strings *)

Definition str := list N.

Definition str_of (s : string) : str :=
  map (fun a => N_of_ascii a) (list_ascii_of_string s).

Definition str_eqb (a b : str) : bool :=
  (fix go a b := match a, b with
                 | [], [] => true
                 | x :: a', y :: b' => (x =? y) && go a' b'
                 | _, _ => false
                 end) a b.

(** The digit zeros of the Unicode decimal digits (general category Nd,
    Unicode 14.0 as in Python 3.11's [unicodedata]): the decimal digits
    are the 66 runs [z .. z+9] that start at these code points, and the
    value of [z+k] is [k]. *)
Definition decimal_zeros : list N :=
  [ 48; 1632; 1776; 1984; 2406; 2534; 2662; 2790; 2918; 3046; 3174; 3302;
    3430; 3558; 3664; 3792; 3872; 4160; 4240; 6112; 6160; 6470; 6608; 6784;
    6800; 6992; 7088; 7232; 7248; 42528; 43216; 43264; 43472; 43504; 43600;
    44016; 65296; 66720; 68912; 69734; 69872; 69942; 70096; 70384; 70736;
    70864; 71248; 71360; 71472; 71904; 72016; 72784; 73040; 73120; 92768;
    92864; 93008; 120782; 120792; 120802; 120812; 120822; 123200; 123632;
    125264; 130032 ].

(** The zero of the run a code point belongs to, if it is a decimal digit:
    [Py_UNICODE_TODECIMAL]. *)
Definition decimal_zero (c : N) : option N :=
  find (fun z => (z <=? c) && (c <=? z + 9)) decimal_zeros.

(** [\d] for a [str] pattern: [Py_UNICODE_ISDECIMAL], every Unicode decimal
    digit. *)
Definition is_digit (c : N) : bool :=
  match decimal_zero c with Some _ => true | None => false end.

(** The ASCII digits [0-9] of an explicit character class. *)
Definition is_ascii_digit (c : N) : bool := (48 <=? c) && (c <=? 57).

(** [\s] for a [str] pattern: [Py_UNICODE_ISSPACE]. *)
Definition is_space (c : N) : bool :=
  ((9 <=? c) && (c <=? 13)) || ((28 <=? c) && (c <=? 32)) || (c =? 133)
  || (c =? 160) || (c =? 5760) || ((8192 <=? c) && (c <=? 8202))
  || (c =? 8232) || (c =? 8233) || (c =? 8239) || (c =? 8287)
  || (c =? 12288).

(** Simple lower-case mapping of the code points whose lower case is an
    ASCII letter: [A-Z], U+0130 (capital I with dot) and U+212A (Kelvin). *)
Definition py_lower (c : N) : N :=
  if (65 <=? c) && (c <=? 90) then c + 32
  else if c =? 304 then 105
  else if c =? 8490 then 107
  else c.

(** [re.IGNORECASE] equivalence of a code point with the ASCII pattern
    character [p]: equal lower cases, plus the equivalence classes of
    [sre_compile._equivalences] that meet ASCII (i ~ U+0131, s ~ U+017F). *)
Definition ci_eq (p c : N) : bool :=
  let lp := py_lower p in
  let lc := py_lower c in
  (lc =? lp) || ((lp =? 105) && (lc =? 305)) || ((lp =? 115) && (lc =? 383)).

(** ** Regular expressions and a backtracking matcher *)

Inductive rx : Type :=
| RChar (cls : N -> bool)                 (* one character of a class *)
| RSeq (r1 r2 : rx)
| RAlt (r1 r2 : rx)                       (* r1|r2, r1 tried first *)
| ROpt (r : rx)                           (* r?, greedy *)
| RRep (cls : N -> bool) (lo : nat) (hi : option nat)  (* [..]{lo,hi}, greedy *)
| RGroup (r : rx).                        (* capturing (...) *)

(** Length of the longest prefix of [s] in class [c], at most [hi]. *)
Fixpoint run_len (c : N -> bool) (hi : option nat) (s : str) : nat :=
  match hi with
  | Some 0%nat => 0
  | _ =>
      match s with
      | x :: s' =>
          if c x then S (run_len c (option_map Nat.pred hi) s') else 0
      | [] => 0
      end
  end.

Section Matcher.
Context {A : Type}.

(** Greedy repetition: try the continuation after [n], [n-1], ..., [lo]
    characters. *)
Fixpoint rep_try (n lo : nat) (s : str) (caps : list str)
    (k : str -> list str -> option A) : option A :=
  if Nat.ltb n lo then None
  else match k (skipn n s) caps with
       | Some v => Some v
       | None => match n with 0%nat => None | S n' => rep_try n' lo s caps k end
       end.

(** [mt r s caps k]: match [r] at the front of [s], then run the
    continuation [k] on the rest; the first success in backtracking order is
    returned.  [caps] are the groups captured so far, in order. *)
Fixpoint mt (r : rx) (s : str) (caps : list str)
    (k : str -> list str -> option A) : option A :=
  match r with
  | RChar c => match s with
               | x :: s' => if c x then k s' caps else None
               | [] => None
               end
  | RSeq r1 r2 => mt r1 s caps (fun s' caps' => mt r2 s' caps' k)
  | RAlt r1 r2 => match mt r1 s caps k with
                  | Some v => Some v
                  | None => mt r2 s caps k
                  end
  | ROpt r1 => match mt r1 s caps k with
               | Some v => Some v
               | None => k s caps
               end
  | RRep c lo hi => rep_try (run_len c hi s) lo s caps k
  | RGroup r1 =>
      mt r1 s caps (fun s' caps' =>
        k s' (caps' ++ [firstn (List.length s - List.length s') s]))
  end.
End Matcher.

(** [re.match]: a match anchored at the start; the rest and the groups. *)
Definition re_match (r : rx) (s : str) : option (str * list str) :=
  mt r s [] (fun rest caps => Some (rest, caps)).

(** [re.search]: the first start position at which [r] matches. *)
Fixpoint re_search (r : rx) (s : str) : option (list str) :=
  match re_match r s with
  | Some (_, caps) => Some caps
  | None => match s with
            | [] => None
            | _ :: s' => re_search r s'
            end
  end.

(** [match.group(1)] of [re.search(pattern, text, re.IGNORECASE)]. *)
Definition search_group1 (r : rx) (s : str) : option str :=
  match re_search r s with
  | Some (g :: _) => Some g
  | _ => None
  end.

(** ** Pattern building blocks (all under [re.IGNORECASE]) *)

Definition ch (c : N) : rx := RChar (ci_eq c).

Fixpoint lit_of (l : list N) : rx :=
  match l with
  | [] => RRep (fun _ => false) 0 (Some 0%nat)
  | [c] => ch c
  | c :: l' => RSeq (ch c) (lit_of l')
  end.

Definition lit (s : string) : rx := lit_of (str_of s).

Fixpoint seqs (l : list rx) : rx :=
  match l with
  | [] => RRep (fun _ => false) 0 (Some 0%nat)
  | [r] => r
  | r :: l' => RSeq r (seqs l')
  end.

Fixpoint alts (l : list rx) : rx :=
  match l with
  | [] => RChar (fun _ => false)
  | [r] => r
  | r :: l' => RAlt r (alts l')
  end.

Definition ws : rx := RRep is_space 0 None.                     (* "\s*" *)
Definition colon_opt : rx := ROpt (ch 58).                      (* ":?" *)
Definition digits_rep (lo : nat) (hi : option nat) : rx :=
  RRep is_digit lo hi.                                           (* "\d{lo,hi}" *)

(** [[A-Z0-9\-]] under [re.IGNORECASE]: a character whose lower case is in
    the folded set [a-z], U+0131, U+017F, [0-9], [-]. *)
Definition id_class (c : N) : bool :=
  let l := py_lower c in
  ((97 <=? l) && (l <=? 122)) || (l =? 305) || (l =? 383)
  || is_ascii_digit c || (c =? 45).

(** [[$\u00a3\u20ac\u20b9]]: dollar, pound, euro and rupee signs. *)
Definition currency (c : N) : bool :=
  (c =? 36) || (c =? 163) || (c =? 8364) || (c =? 8377).

(** [[0-9,]] *)
Definition digit_or_comma (c : N) : bool := is_ascii_digit c || (c =? 44).

(** [[\/\-\.]] *)
Definition date_sep (c : N) : bool := (c =? 47) || (c =? 45) || (c =? 46).

(** ** The patterns of [extract_invoice_data] *)

(** ["(?:no\.?|number|#)"] *)
Definition no_number_hash : rx :=
  alts [RSeq (lit "no") (ROpt (ch 46)); lit "number"; ch 35].

(** ["invoice\s*(?:no\.?|number|#)\s*:?\s*([A-Z0-9\-]+)"] and its siblings. *)
Definition invoice_patterns : list rx :=
  [ seqs [lit "invoice"; ws; no_number_hash; ws; colon_opt; ws;
          RGroup (RRep id_class 1 None)];
    seqs [lit "inv"; ws; alts [RSeq (lit "no") (ROpt (ch 46)); ch 35];
          ws; colon_opt; ws; RGroup (RRep id_class 1 None)];
    seqs [lit "bill"; ws; no_number_hash; ws; colon_opt; ws;
          RGroup (RRep id_class 1 None)];
    seqs [lit "reference"; ws; no_number_hash; ws; colon_opt; ws;
          RGroup (RRep id_class 1 None)] ].

(** The capturing group of [[0-9,]+\.?\d*] *)
Definition amount_group : rx :=
  RGroup (seqs [RRep digit_or_comma 1 None; ROpt (ch 46); digits_rep 0 None]).

Definition currency_opt : rx := ROpt (RChar currency).

Definition amount_patterns : list rx :=
  [ (* "total\s*(?:amount)?\s*:?\s*[$..]?\s*(...)" *)
    seqs [lit "total"; ws; ROpt (lit "amount"); ws; colon_opt; ws;
          currency_opt; ws; amount_group];
    (* "amount\s*(?:due|total)?\s*:?\s*[$..]?\s*(...)" *)
    seqs [lit "amount"; ws; ROpt (alts [lit "due"; lit "total"]); ws;
          colon_opt; ws; currency_opt; ws; amount_group];
    (* "grand\s*total\s*:?\s*[$..]?\s*(...)" *)
    seqs [lit "grand"; ws; lit "total"; ws; colon_opt; ws; currency_opt;
          ws; amount_group];
    (* "balance\s*(?:due)?\s*:?\s*[$..]?\s*(...)" *)
    seqs [lit "balance"; ws; ROpt (lit "due"); ws; colon_opt; ws;
          currency_opt; ws; amount_group];
    (* "[$..]\s*(...)\s*(?:total|due|balance)" *)
    seqs [RChar currency; ws; amount_group; ws;
          alts [lit "total"; lit "due"; lit "balance"]] ].

(** ["(\d{1,2}[\/\-\.]\d{1,2}[\/\-\.]\d{2,4})"] *)
Definition date_group : rx :=
  RGroup (seqs [digits_rep 1 (Some 2%nat); RChar date_sep;
                digits_rep 1 (Some 2%nat); RChar date_sep;
                digits_rep 2 (Some 4%nat)]).

(** [due\s*(?:date|by)?\s*:?\s*(date)], the first due-date pattern. *)
Definition due_date_pattern : rx :=
  seqs [lit "due"; ws; ROpt (alts [lit "date"; lit "by"]); ws; colon_opt;
        ws; date_group].

Definition date_patterns : list rx :=
  [ due_date_pattern;
    seqs [lit "payment"; ws; lit "due"; ws; colon_opt; ws; date_group];
    seqs [lit "payable"; ws; lit "by"; ws; colon_opt; ws; date_group];
    seqs [lit "due"; ws; lit "on"; ws; colon_opt; ws; date_group] ].

(** ** [float()] on the cleaned amount string *)

(** Binary64: 53 bits of precision, infinities at exponent 1024. *)
Definition prec : Z := 53.
Definition emax : Z := 1024.

(** The value of a decimal digit, as [int()] and [float()] read it (they
    first turn every Unicode decimal digit into its ASCII digit). *)
Definition digit_val (c : N) : Z :=
  match decimal_zero c with Some z => Z.of_N (c - z) | None => 0%Z end.

Definition digits_value (l : str) : Z :=
  fold_left (fun acc c => (acc * 10 + digit_val c)%Z) l 0%Z.

(** The binary64 number nearest (ties to even) to the decimal [ip.fp],
    overflowing to [+inf], as CPython's [float()] computes it. *)
Definition decimal_to_float (ip fp : str) : spec_float :=
  let m := digits_value (ip ++ fp) in
  match fp with
  | [] => binary_normalize prec emax m 0 false
  | _ =>
      match m with
      | Z0 => S754_zero false
      | _ =>
          let '(q, e, l) :=
            SFdiv_core_binary prec emax m 0 (10 ^ Z.of_nat (List.length fp)) 0 in
          binary_round_aux prec emax false q e l
      end
  end.

(** [float(s)] for the strings that reach it in [extract_invoice_data]:
    [s] is the group [[0-9,]+\.?\d*] with its commas removed, so decimal
    digits, an optional [.] and decimal digits, where [\d] (and [float()],
    which first maps every Unicode decimal digit to its ASCII digit) takes
    any Unicode decimal digit.  [float()] accepts such a string when it has
    at least one digit and raises [ValueError] otherwise ([""] and ["."]).
    Other strings (signs, exponents, spaces, [inf]) cannot reach it and are
    refused here. *)
Definition py_float (s : str) : option spec_float :=
  let ip := (fix pre l := match l with
                          | c :: l' => if is_digit c then c :: pre l' else []
                          | [] => []
                          end) s in
  let rest := skipn (List.length ip) s in
  match rest with
  | [] => match ip with [] => None | _ => Some (decimal_to_float ip []) end
  | c :: fp =>
      if (c =? 46) && forallb is_digit fp then
        match ip, fp with
        | [], [] => None
        | _, _ => Some (decimal_to_float ip fp)
        end
      else None
  end.

(** [s.replace(',', '')] *)
Definition remove_commas (s : str) : str := List.filter (fun c => negb (c =? 44)) s.

(** A float that is not NaN and has a clear sign bit: [+0.0], a positive
    finite number or [+inf]. *)
Definition nonneg_float (f : spec_float) : bool :=
  match f with
  | S754_zero false | S754_finite false _ _ | S754_infinity false => true
  | _ => false
  end.

Definition is_finite_float (f : spec_float) : bool :=
  match f with
  | S754_zero _ | S754_finite _ _ _ => true
  | _ => false
  end.

(** ** Calendar dates and [datetime.strptime] *)

Record date := mkDate { year : Z; month : Z; day : Z }.

Definition is_leap (y : Z) : bool :=
  (Z.eqb (Z.modulo y 4) 0 && negb (Z.eqb (Z.modulo y 100) 0))
  || Z.eqb (Z.modulo y 400) 0.

Definition days_in_month (y m : Z) : Z :=
  if Z.eqb m 2 then (if is_leap y then 29 else 28)
  else if (Z.eqb m 4 || Z.eqb m 6 || Z.eqb m 9 || Z.eqb m 11)%bool then 30
  else 31.

(** The range checks of [datetime.date(year, month, day)]:
    [MINYEAR = 1], [MAXYEAR = 9999]. *)
Definition valid_date (d : date) : bool :=
  (Z.leb 1 (year d) && Z.leb (year d) 9999
   && Z.leb 1 (month d) && Z.leb (month d) 12
   && Z.leb 1 (day d) && Z.leb (day d) (days_in_month (year d) (month d)))%Z.

Definition in_range (lo hi : N) (c : N) : bool := (lo <=? c) && (c <=? hi).
Definition is_char (x : N) (c : N) : bool := c =? x.

(** [_strptime.TimeRE]: ["(?P<d>3[01]|[12]\d|0[1-9]|[1-9]| [1-9])"] *)
Definition d_rx : rx :=
  alts [ RSeq (RChar (is_char 51)) (RChar (in_range 48 49));
         RSeq (RChar (in_range 49 50)) (RChar is_digit);
         RSeq (RChar (is_char 48)) (RChar (in_range 49 57));
         RChar (in_range 49 57);
         RSeq (RChar (is_char 32)) (RChar (in_range 49 57)) ].

(** ["(?P<m>1[0-2]|0[1-9]|[1-9])"] *)
Definition m_rx : rx :=
  alts [ RSeq (RChar (is_char 49)) (RChar (in_range 48 50));
         RSeq (RChar (is_char 48)) (RChar (in_range 49 57));
         RChar (in_range 49 57) ].

(** ["(?P<Y>\d\d\d\d)"] *)
Definition Y_rx : rx :=
  seqs [RChar is_digit; RChar is_digit; RChar is_digit; RChar is_digit].

(** The six layouts of the source, in its order:
    ['%d/%m/%Y', '%m/%d/%Y', '%d-%m-%Y', '%m-%d-%Y', '%d.%m.%Y', '%m.%d.%Y']. *)
Inductive field_order := DayFirst | MonthFirst.
Record layout := mkLayout { order : field_order; sep : N }.

Definition layouts : list layout :=
  [ mkLayout DayFirst 47; mkLayout MonthFirst 47;
    mkLayout DayFirst 45; mkLayout MonthFirst 45;
    mkLayout DayFirst 46; mkLayout MonthFirst 46 ].

(** [TimeRE.pattern(fmt)], compiled with [re.IGNORECASE]. *)
Definition layout_rx (f : layout) : rx :=
  match order f with
  | DayFirst => seqs [RGroup d_rx; ch (sep f); RGroup m_rx; ch (sep f); RGroup Y_rx]
  | MonthFirst => seqs [RGroup m_rx; ch (sep f); RGroup d_rx; ch (sep f); RGroup Y_rx]
  end.

(** [int()] of a captured field: its decimal digits (any Unicode decimal
    digit, as [int()] reads them), leading spaces ignored. *)
Definition int_of (s : str) : Z := digits_value (List.filter is_digit s).

(** [datetime.strptime(s, fmt).date()]: [format_regex.match(s)], then
    "unconverted data remains" unless the whole of [s] is consumed, then
    [datetime_date(year, month, day)], which refuses invalid dates.  [None]
    is the [ValueError] of each of these steps. *)
Definition strptime (s : str) (f : layout) : option date :=
  match re_match (layout_rx f) s with
  | Some ([], [g1; g2; g3]) =>
      let d := match order f with
               | DayFirst => mkDate (int_of g3) (int_of g2) (int_of g1)
               | MonthFirst => mkDate (int_of g3) (int_of g1) (int_of g2)
               end in
      if valid_date d then Some d else None
  | _ => None
  end.

(** ** [extract_invoice_data] *)

(** [str.strip()] *)
Definition py_strip (s : str) : str :=
  let drop := fix drop l := match l with
                            | c :: l' => if is_space c then drop l' else l
                            | [] => []
                            end in
  rev (drop (rev (drop s))).

(** [str.upper()] on the lower-case hexadecimal digits of [uuid4().hex]. *)
Definition hex_upper (s : str) : str :=
  map (fun c => if in_range 97 122 c then c - 32 else c) s.

(** First loop: the first pattern that matches gives [group(1).strip()]. *)
Fixpoint find_invoice_id (pats : list rx) (text : str) : option str :=
  match pats with
  | [] => None
  | p :: ps => match search_group1 p text with
               | Some g => Some (py_strip g)
               | None => find_invoice_id ps text
               end
  end.

(** Second loop: a match whose cleaned group [float()] refuses continues
    with the next pattern. *)
Fixpoint find_amount (pats : list rx) (text : str) : option spec_float :=
  match pats with
  | [] => None
  | p :: ps => match search_group1 p text with
               | Some g => match py_float (remove_commas g) with
                           | Some f => Some f
                           | None => find_amount ps text
                           end
               | None => find_amount ps text
               end
  end.

(** Inner loop over the layouts. *)
Fixpoint parse_layouts (fs : list layout) (tok : str) : option date :=
  match fs with
  | [] => None
  | f :: fs' => match strptime tok f with
                | Some d => Some d
                | None => parse_layouts fs' tok
                end
  end.

(** Third loop: stop at the first pattern whose token some layout parses. *)
Fixpoint find_due_date (pats : list rx) (text : str) : option date :=
  match pats with
  | [] => None
  | p :: ps => match search_group1 p text with
               | Some tok => match parse_layouts layouts tok with
                             | Some d => Some d
                             | None => find_due_date ps text
                             end
               | None => find_due_date ps text
               end
  end.

Record invoice := mkInvoice
  { invoice_id : str; total_amount : spec_float; due_date : date }.

(** [extract_invoice_data(text)].  The two values the source draws from its
    environment are parameters: [uuid_hex] is [uuid.uuid4().hex] and
    [today] is [datetime.now().date()]. *)
Definition extract_invoice_data (uuid_hex : str) (today : date) (text : str)
    : invoice :=
  let invoice_id :=
    match find_invoice_id invoice_patterns text with
    | Some ((_ :: _) as g) => g
    | _ => str_of "INV-" ++ hex_upper (firstn 8 uuid_hex)
    end in
  let total_amount :=
    match find_amount amount_patterns text with
    | Some f => f
    | None => S754_zero false
    end in
  let due_date :=
    match find_due_date date_patterns text with
    | Some d => d
    | None => today
    end in
  mkInvoice invoice_id total_amount due_date.

(** ** [str(date)]: ISO format [YYYY-MM-DD] *)

Fixpoint pad_digits (w : nat) (n : Z) (acc : str) : str :=
  match w with
  | O => acc
  | S w' => pad_digits w' (Z.div n 10) (Z.to_N (48 + Z.modulo n 10) :: acc)
  end.

Definition date_iso (d : date) : str :=
  pad_digits 4 (year d) [] ++ [45] ++ pad_digits 2 (month d) [] ++ [45]
  ++ pad_digits 2 (day d) [].

(** ** The webhook: collaborators, effects and responses *)

(** Environment variables read at import time ([os.getenv]). *)
Record config := mkConfig
  { DATABASE_URL : option str;
    TWILIO_ACCOUNT_SID : option str;
    TWILIO_AUTH_TOKEN : option str;
    TWILIO_PHONE_NUMBER : option str }.

(** [requests.get(url, auth=..., timeout=30)] followed by
    [raise_for_status()]: the content, a [RequestException] (connection
    error, timeout, HTTP error status) or another exception. *)
Inductive download := DlOk (content : list N) | DlRequestError | DlOtherError.

(** [open(f, "wb").write(content)]: success, or an exception raised after
    the file was or was not created. *)
Inductive write_outcome := WriteOk | WriteFail (created : bool).

(** [ocr_engine.ocr(f)]: an exception, or the returned value: [None] or a
    list of pages, each [None] or a list of lines; a line is kept here as
    its text [line[1][0]]. *)
Inductive ocr_outcome :=
| OcrRaises
| OcrReturns (result : option (list (option (list str)))).

(** What the external systems do on one request. *)
Record world := mkWorld
  { http_get : str -> str -> str -> download;        (* url, sid, token *)
    file_write : str -> list N -> write_outcome;
    ocr : str -> ocr_outcome;
    (** [psycopg2.connect(DATABASE_URL)], [INSERT], [commit] all succeed *)
    db_insert : option str -> invoice -> str -> bool;
    (** [Client(sid, token).messages.create(body, from_, to)] succeeds *)
    twilio_send : option str -> option str -> option str -> str -> str -> bool;
    (** [os.remove(f)] succeeds *)
    remove_ok : str -> bool }.

(** Observable effects, in order. *)
Inductive event :=
| EvGet (url : str)                       (* media download *)
| EvWrite (f : str)                       (* scratch file written *)
| EvOcr (f : str)                         (* recognition *)
| EvSave (inv : invoice) (sender : str)   (* persistence gateway *)
| EvSend (to : str) (body : str)          (* notification gateway *)
| EvExists (f : str)                      (* os.path.exists *)
| EvRemove (f : str).                     (* os.remove *)

Definition external_call (e : event) : bool :=
  match e with
  | EvGet _ | EvOcr _ | EvSave _ _ | EvSend _ _ => true
  | _ => false
  end.

Inductive response :=
| JSONSuccess (invoice_id : str) (total_amount : spec_float) (due_date : str)
| JSONError (status : Z) (error : string).

Definition status_of (r : response) : Z :=
  match r with JSONSuccess _ _ _ => 200 | JSONError s _ => s end.

(** Python exceptions, as the [except] clauses of the handler tell them
    apart. *)
Inductive exn := ExRequest | ExOther.

Inductive result (A : Type) := Ret (a : A) | Raise (e : exn).
Arguments Ret {A} a.
Arguments Raise {A} e.

(** Process state: the files on disk and the effect log. *)
Record st := mkSt { files : list str; log : list event }.

Definition M (A : Type) := st -> result A * st.

Definition ret {A} (a : A) : M A := fun s => (Ret a, s).
Definition raise {A} (e : exn) : M A := fun s => (Raise e, s).
Definition bind {A B} (m : M A) (f : A -> M B) : M B :=
  fun s => match m s with
           | (Ret a, s') => f a s'
           | (Raise e, s') => (Raise e, s')
           end.

Notation "x <- m ;; k" := (bind m (fun x => k))
  (at level 61, m at next level, right associativity).
Notation "m ;;; k" := (bind m (fun _ => k)) (at level 61, right associativity).

Definition emit (e : event) : M unit :=
  fun s => (Ret tt, mkSt (files s) (log s ++ [e])).

Definition create_file (f : str) : M unit :=
  fun s => (Ret tt, mkSt (f :: files s) (log s)).

Definition file_exists (f : str) (s : st) : bool :=
  existsb (str_eqb f) (files s).

Definition delete_file (f : str) : M unit :=
  fun s => (Ret tt, mkSt (List.filter (fun g => negb (str_eqb f g)) (files s)) (log s)).

(** [not x] on an optional string: [None] and [""] are falsy. *)
Definition falsy (o : option str) : bool :=
  match o with None | Some [] => true | Some (_ :: _) => false end.

Definition opt_str (o : option str) : str :=
  match o with Some s => s | None => [] end.

(** [f"/tmp/invoice_{uuid.uuid4().hex}.file"] *)
Definition scratch_name (hex : str) : str :=
  str_of "/tmp/invoice_" ++ hex ++ str_of ".file".

(** [" ".join([line[1][0] for line in result[0] if line[1][0]])] *)
Fixpoint join_space (l : list str) : str :=
  match l with
  | [] => []
  | [x] => x
  | x :: l' => x ++ [32] ++ join_space l'
  end.

(** [if not result or not result[0]]: [None] when there is no text. *)
Definition first_page (r : option (list (option (list str)))) : option (list str) :=
  match r with
  | Some (Some ((_ :: _) as lines) :: _) => Some lines
  | _ => None
  end.

Definition ocr_text (lines : list str) : str :=
  join_space (List.filter (fun t => match t with [] => false | _ => true end) lines).

(** [save_invoice]: every exception is caught and reported as [False]. *)
Definition save_invoice (cfg : config) (w : world) (inv : invoice) (sender : str)
    : M bool :=
  emit (EvSave inv sender) ;;; ret (db_insert w (DATABASE_URL cfg) inv sender).

Definition confirmation_body (invoice_number : str) : str :=
  [9989; 32] ++ str_of "Invoice " ++ invoice_number
  ++ str_of " has been processed successfully and saved to our system.".

(** [send_confirmation]: every exception is caught and reported as [False]. *)
Definition send_confirmation (cfg : config) (w : world) (to invoice_number : str)
    : M bool :=
  let body := confirmation_body invoice_number in
  emit (EvSend to body) ;;;
  ret (twilio_send w (TWILIO_ACCOUNT_SID cfg) (TWILIO_AUTH_TOKEN cfg)
         (TWILIO_PHONE_NUMBER cfg) to body).

(** [JSONResponse(content)] renders with [json.dumps(..., allow_nan=False)],
    which raises [ValueError] on an infinite or NaN float. *)
Definition json_success (inv : invoice) : M response :=
  if is_finite_float (total_amount inv)
  then ret (JSONSuccess (invoice_id inv) (total_amount inv) (date_iso (due_date inv)))
  else raise ExOther.

Definition msg_no_media : string := "No media found in the message.".
Definition msg_config : string := "Server configuration error. Please contact support.".
Definition msg_no_text : string :=
  "Could not extract text from the image. Please ensure the image is clear and contains readable text.".
Definition msg_db : string := "Failed to save invoice data to database. Please try again later.".
Definition msg_download : string :=
  "Failed to download the media file. Please check the file and try again.".
Definition msg_unexpected : string :=
  "An unexpected error occurred while processing your invoice. Please try again later.".

(** The body of the [try:] block of [whatsapp_webhook]. *)
Definition webhook_try (cfg : config) (w : world) (url from : str)
    (unique_filename inv_hex : str) (today : date) : M response :=
  if falsy (TWILIO_ACCOUNT_SID cfg) || falsy (TWILIO_AUTH_TOKEN cfg) then
    ret (JSONError 500 msg_config)
  else
    emit (EvGet url) ;;;
    match http_get w url (opt_str (TWILIO_ACCOUNT_SID cfg))
                         (opt_str (TWILIO_AUTH_TOKEN cfg)) with
    | DlRequestError => raise ExRequest
    | DlOtherError => raise ExOther
    | DlOk content =>
        emit (EvWrite unique_filename) ;;;
        match file_write w unique_filename content with
        | WriteFail created =>
            (if created then create_file unique_filename else ret tt) ;;;
            raise ExOther
        | WriteOk =>
            create_file unique_filename ;;;
            emit (EvOcr unique_filename) ;;;
            match ocr w unique_filename with
            | OcrRaises => raise ExOther
            | OcrReturns r =>
                match first_page r with
                | None => ret (JSONError 400 msg_no_text)
                | Some lines =>
                    let text := ocr_text lines in
                    let inv := extract_invoice_data inv_hex today text in
                    db_success <- save_invoice cfg w inv from ;;
                    if negb db_success then ret (JSONError 500 msg_db)
                    else
                      send_confirmation cfg w from (invoice_id inv) ;;;
                      json_success inv
                end
            end
        end
    end.

(** The [except] clauses. *)
Definition webhook_except (e : exn) : response :=
  match e with
  | ExRequest => JSONError 400 msg_download
  | ExOther => JSONError 500 msg_unexpected
  end.

(** The [finally:] clause: an exception of [os.remove] is caught there. *)
Definition webhook_finally (w : world) (unique_filename : str) : M unit :=
  fun s =>
    if file_exists unique_filename s then
      (emit (EvExists unique_filename) ;;; emit (EvRemove unique_filename) ;;;
       if remove_ok w unique_filename then delete_file unique_filename else ret tt) s
    else emit (EvExists unique_filename) s.

(** [whatsapp_webhook(MediaUrl0, From)].  [file_hex] and [inv_hex] are the
    values of the two [uuid.uuid4().hex] calls (scratch name, synthesized
    invoice id) and [today] the value of [datetime.now().date()]. *)
Definition whatsapp_webhook (cfg : config) (w : world)
    (MediaUrl0 : option str) (From : str) (file_hex inv_hex : str)
    (today : date) (s : st) : response * st :=
  match MediaUrl0 with
  | None | Some [] => (JSONError 400 msg_no_media, s)
  | Some url =>
      let unique_filename := scratch_name file_hex in
      let '(r, s1) := webhook_try cfg w url From unique_filename inv_hex today s in
      let resp := match r with Ret a => a | Raise e => webhook_except e end in
      let '(_, s2) := webhook_finally w unique_filename s1 in
      (resp, s2)
  end.

(** ** Sample configurations and collaborators *)

Definition sample_config : config :=
  mkConfig (Some (str_of "postgresql://invoices")) (Some (str_of "AC0001"))
           (Some (str_of "secret")) (Some (str_of "whatsapp:+10000000000")).

(** A configuration whose database connection string is absent. *)
Definition config_no_db : config :=
  mkConfig None (Some (str_of "AC0001")) (Some (str_of "secret"))
           (Some (str_of "whatsapp:+10000000000")).

(** Collaborators that all succeed, except as the flags say. *)
Definition sample_world (r : option (list (option (list str))))
    (db_ok send_ok : bool) : world :=
  mkWorld (fun _ _ _ => DlOk [137; 80; 78; 71]) (fun _ _ => WriteOk)
          (fun _ => OcrReturns r) (fun _ _ _ => db_ok)
          (fun _ _ _ _ _ => send_ok) (fun _ => true).

Definition sample_url : str := str_of "https://api.twilio.com/media/ME1".
Definition sample_from : str := str_of "whatsapp:+19995550100".
Definition sample_hex1 : str := str_of "3f2a9c0e5b7d41a8b6c2d9e0f1a2b3c4".
Definition sample_hex2 : str := str_of "9b8c7d6e5f4a41b2a3c4d5e6f7a8b9c0".
Definition sample_today : date := mkDate 2026 10 17.
Definition empty_st : st := mkSt [] [].

(** The effects of a run that started in [s0] and ended in [s1]. *)
Definition new_events (s0 s1 : st) : list event :=
  skipn (List.length (log s0)) (log s1).

(** The same collaborators with another outcome of [os.remove]. *)
Definition with_remove (w : world) (b : str -> bool) : world :=
  mkWorld (http_get w) (file_write w) (ocr w) (db_insert w) (twilio_send w) b.

(** The same collaborators with another outcome of the notification. *)
Definition with_send (w : world)
    (b : option str -> option str -> option str -> str -> str -> bool) : world :=
  mkWorld (http_get w) (file_write w) (ocr w) (db_insert w) b (remove_ok w).

Definition invoice_A : invoice :=
  mkInvoice (str_of "INV-55") (binary_normalize prec emax 250 0 false)
            (mkDate 2025 5 1).

(** Scratch files a list of effects touches. *)
Definition event_file (e : event) : option str :=
  match e with
  | EvWrite f | EvOcr f | EvExists f | EvRemove f => Some f
  | _ => None
  end.

Definition files_touched (l : list event) : list str :=
  flat_map (fun e => match event_file e with Some f => [f] | None => [] end) l.

(** One inbound request: its form fields and the values its two
    [uuid.uuid4()] calls draw. *)
Record request := mkRequest
  { rq_media : option str; rq_from : str; rq_file_hex : str; rq_inv_hex : str }.

(** A recognized text whose total has 310 digits: beyond the binary64
    range. *)
Definition text_huge_total : str := str_of "Total: 1" ++ repeat 48 309.

(** The recognized text of scenario C7: a due-by label before the
    due-date label. *)
Definition text_two_due_dates : str :=
  str_of "Due by 01/02/2023 " ++ str_of "Due Date: 15/03/2024".

Definition label_due_date : str := str_of "Due Date: 15/03/2024".

(** The longest prefix of decimal digits. *)
Fixpoint digit_prefix (l : str) : str :=
  match l with
  | c :: l' => if is_digit c then c :: digit_prefix l' else []
  | [] => []
  end.

(** The year field of a token captured by the date group: the digits after
    its last separator. *)
Definition year_field (tok : str) : str := rev (digit_prefix (rev tok)).

(** The strings a regex accepts, whatever follows them. *)
Inductive accepts : rx -> str -> Prop :=
| AChar (c : N -> bool) (x : N) : c x = true -> accepts (RChar c) [x]
| ASeq (r1 r2 : rx) (u v : str) :
    accepts r1 u -> accepts r2 v -> accepts (RSeq r1 r2) (u ++ v)
| AAltL (r1 r2 : rx) (u : str) : accepts r1 u -> accepts (RAlt r1 r2) u
| AAltR (r1 r2 : rx) (u : str) : accepts r2 u -> accepts (RAlt r1 r2) u
| AOptSome (r : rx) (u : str) : accepts r u -> accepts (ROpt r) u
| AOptNone (r : rx) : accepts (ROpt r) []
| ARep (c : N -> bool) (lo : nat) (hi : option nat) (u : str) :
    Forall (fun x => c x = true) u -> (lo <= List.length u)%nat ->
    match hi with Some h => (List.length u <= h)%nat | None => True end ->
    accepts (RRep c lo hi) u
| AGroup (r : rx) (u : str) : accepts r u -> accepts (RGroup r) u.

(** Every group of [r] captures only strings satisfying [Q]. *)
Fixpoint groups_ok (Q : str -> Prop) (r : rx) : Prop :=
  match r with
  | RChar _ | RRep _ _ _ => True
  | RSeq r1 r2 | RAlt r1 r2 => groups_ok Q r1 /\ groups_ok Q r2
  | ROpt r1 => groups_ok Q r1
  | RGroup r1 => groups_ok Q r1 /\ (forall u, accepts r1 u -> Q u)
  end.

(** The characters of [[A-Z0-9\-]] under [re.IGNORECASE]. *)
Definition id_chars (u : str) : Prop := Forall (fun c => id_class c = true) u.

(** [uuid.uuid4().hex]: lower-case hexadecimal digits. *)
Definition is_lower_hex (c : N) : bool := is_ascii_digit c || in_range 97 102 c.

(** The separators of the six layouts: [/], [-] and [.]. *)
Definition date_seps : list N := [47; 45; 46].

(** A date written with a two-digit day, a two-digit month and a four-digit
    year, in the given field order, the fields separated by [s]. *)
Definition date_token (s : N) (o : field_order) (d : date) : str :=
  let dd := pad_digits 2 (day d) [] in
  let mm := pad_digits 2 (month d) [] in
  let yy := pad_digits 4 (year d) [] in
  match o with
  | DayFirst => dd ++ [s] ++ mm ++ [s] ++ yy
  | MonthFirst => mm ++ [s] ++ dd ++ [s] ++ yy
  end.

(** Collaborators with fixed outcomes. *)
Definition world_of (dl : download) (wr : write_outcome) (o : ocr_outcome)
    (db_ok send_ok : bool) : world :=
  mkWorld (fun _ _ _ => dl) (fun _ _ => wr) (fun _ => o) (fun _ _ _ => db_ok)
          (fun _ _ _ _ _ => send_ok) (fun _ => true).

(** * Properties *)

(** ** Decimal digits *)

Lemma decimal_zero_ascii (c : N) : 48 <= c <= 57 -> decimal_zero c = Some 48.
Proof.
  intros Hc; unfold decimal_zero, decimal_zeros; cbn [find].
  replace ((48 <=? c) && (c <=? 48 + 9)) with true
    by (symmetry; apply andb_true_intro; split; apply N.leb_le; lia).
  reflexivity.
Qed.

(** Every decimal digit is an ASCII digit or lies at or above U+0660, and
    none is U+212A (Kelvin sign). *)
Lemma is_digit_range (c : N) :
  is_digit c = true -> (48 <= c <= 57) \/ (1632 <= c /\ c <> 8490).
Proof.
  unfold is_digit; destruct (decimal_zero c) as [z|] eqn:E; [|discriminate].
  intros _; apply find_some in E as [Hin Hz].
  apply andb_prop in Hz as [H1 H2]; apply N.leb_le in H1, H2.
  unfold decimal_zeros in Hin; cbn [In] in Hin.
  repeat (destruct Hin as [<-|Hin]; [lia|]); contradiction.
Qed.

Lemma digit_val_nonneg (c : N) : (0 <= digit_val c)%Z.
Proof.
  unfold digit_val; destruct (decimal_zero c); [apply N2Z.is_nonneg|lia].
Qed.

Ltac unfold_monad :=
  unfold bind, ret, raise, emit, create_file, delete_file, save_invoice,
    send_confirmation, json_success in *.

(** ** Scenario A *)

Definition text_A : str :=
  str_of "Invoice #INV-55 Total Due: $250.00 Due by 01/05/2025".

Definition float_250 : spec_float := binary_normalize prec emax 250 0 false.

(** The collaborators of scenario A: every call succeeds. *)
Definition world_A : world := sample_world (Some [Some [text_A]]) true true.

Lemma extract_text_A (h : str) (t : date) :
  extract_invoice_data h t text_A =
  mkInvoice (str_of "INV-55") float_250 (mkDate 2025 5 1).
Proof. reflexivity. Qed.

(** C2: a request with a media reference whose recognized text is exactly
    the scenario-A text, with persistence succeeding, is answered with
    [status: success], [invoice_id "INV-55"], [total_amount 250.0] and
    [due_date "2025-05-01"] (whatever the notification gateway does). *)
Theorem scenario_A_response (cfg : config) (w : world) (url from : str)
    (file_hex inv_hex : str) (today : date) (s0 : st) content r lines :
  url <> [] ->
  falsy (TWILIO_ACCOUNT_SID cfg) = false ->
  falsy (TWILIO_AUTH_TOKEN cfg) = false ->
  http_get w url (opt_str (TWILIO_ACCOUNT_SID cfg))
    (opt_str (TWILIO_AUTH_TOKEN cfg)) = DlOk content ->
  file_write w (scratch_name file_hex) content = WriteOk ->
  ocr w (scratch_name file_hex) = OcrReturns r ->
  first_page r = Some lines ->
  ocr_text lines = text_A ->
  db_insert w (DATABASE_URL cfg)
    (mkInvoice (str_of "INV-55") float_250 (mkDate 2025 5 1)) from = true ->
  fst (whatsapp_webhook cfg w (Some url) from file_hex inv_hex today s0) =
  JSONSuccess (str_of "INV-55") float_250 (str_of "2025-05-01").
Proof.
  intros Hurl Hsid Htok Hget Hwr Hocr Hpage Htext Hdb.
  destruct url as [|c url]; [congruence|].
  unfold whatsapp_webhook, webhook_try.
  rewrite Hsid, Htok; simpl orb; cbv iota.
  unfold_monad.
  rewrite Hget, Hwr, Hocr, Hpage, Htext, extract_text_A, Hdb.
  simpl.
  destruct (webhook_finally _ _ _); reflexivity.
Qed.

(** Witness of C2: every hypothesis holds for the sample collaborators. *)
Lemma scenario_A_response_witness :
  fst (whatsapp_webhook sample_config (sample_world (Some [Some [text_A]]) true true)
         (Some sample_url) sample_from sample_hex1 sample_hex2 sample_today
         empty_st) =
  JSONSuccess (str_of "INV-55") float_250 (str_of "2025-05-01").
Proof.
  apply (scenario_A_response sample_config
           (sample_world (Some [Some [text_A]]) true true) sample_url sample_from
           sample_hex1 sample_hex2 sample_today empty_st [137; 80; 78; 71]
           (Some [Some [text_A]]) [text_A]);
    try reflexivity; discriminate.
Defined.

(** ** Requests without media *)

(** C6: with [MediaUrl0] absent or empty the handler answers 400 at once:
    the state (files on disk, effect log) is unchanged, so no external call
    is made and no scratch file is created. *)
Theorem no_media_rejected (cfg : config) (w : world) (media : option str)
    (from file_hex inv_hex : str) (today : date) (s0 : st) :
  falsy media = true ->
  whatsapp_webhook cfg w media from file_hex inv_hex today s0 =
  (JSONError 400 msg_no_media, s0).
Proof.
  intros H; destruct media as [[|c u]|]; try discriminate; reflexivity.
Qed.

Lemma no_media_rejected_witness :
  whatsapp_webhook sample_config (sample_world None true true) None sample_from
    sample_hex1 sample_hex2 sample_today empty_st =
  (JSONError 400 msg_no_media, empty_st).
Proof. apply no_media_rejected; reflexivity. Defined.

(** ** Running the handler branch by branch *)

(** The extracted record stays folded while the handler is unfolded. *)
Opaque extract_invoice_data.

Ltac split_world :=
  match goal with
  | |- context [orb (falsy ?x) (falsy ?y)] => destruct (orb (falsy x) (falsy y)) eqn:?
  | |- context [http_get ?w ?a ?b ?c] => destruct (http_get w a b c) eqn:?
  | |- context [file_write ?w ?a ?b] => destruct (file_write w a b) eqn:?
  | |- context [ocr ?w ?a] => destruct (ocr w a) eqn:?
  | |- context [first_page ?r] => destruct (first_page r) eqn:?
  | |- context [db_insert ?w ?a ?b ?c] => destruct (db_insert w a b c) eqn:?
  | |- context [is_finite_float ?x] => destruct (is_finite_float x) eqn:?
  | |- context [file_exists ?f ?s] => destruct (file_exists f s) eqn:?
  | |- context [remove_ok ?w ?f] => destruct (remove_ok w f) eqn:?
  | |- context [if ?b then _ else _] => is_var b; destruct b
  end.

Ltac run_webhook :=
  unfold whatsapp_webhook, webhook_try, webhook_finally; unfold_monad;
  cbv beta iota zeta;
  repeat (split_world; cbv beta iota zeta); simpl in *;
  repeat (split_world; simpl in * ).

Lemma new_events_app (s0 : st) (fs : list str) (mid : list event) :
  new_events s0 (mkSt fs (log s0 ++ mid)) = mid.
Proof.
  unfold new_events; simpl.
  rewrite skipn_app, skipn_all, Nat.sub_diag; reflexivity.
Qed.

Ltac new_events_simpl :=
  repeat rewrite <- app_assoc in *; simpl app in *;
  repeat rewrite new_events_app in *.

(** ** Persistence failure *)

(** C4: when the persistence gateway reports failure for the record of the
    request, the handler answers 500 and the notification gateway is not
    invoked. *)
Theorem persistence_failure_aborts (cfg : config) (w : world) (url from : str)
    (file_hex inv_hex : str) (today : date) (s0 : st) (inv : invoice) :
  url <> [] ->
  let '(resp, s1) := whatsapp_webhook cfg w (Some url) from file_hex inv_hex today s0 in
  In (EvSave inv from) (new_events s0 s1) ->
  db_insert w (DATABASE_URL cfg) inv from = false ->
  resp = JSONError 500 msg_db /\
  (forall to body, ~ In (EvSend to body) (new_events s0 s1)).
Proof.
  intros Hurl; destruct url as [|c url]; [congruence|].
  run_webhook; new_events_simpl.
  all: intros Hin Hdb.
  all: repeat (destruct Hin as [Hin|Hin]; [try discriminate Hin|]);
       try contradiction.
  all: try (injection Hin as <-; congruence).
  all: split; [reflexivity|].
  all: intros to body Hs; repeat (destruct Hs as [Hs|Hs]; [discriminate Hs|]);
       contradiction.
Qed.

Lemma persistence_failure_aborts_witness :
  let '(resp, s1) :=
    whatsapp_webhook sample_config (sample_world (Some [Some [text_A]]) false true)
      (Some sample_url) sample_from sample_hex1 sample_hex2 sample_today empty_st in
  resp = JSONError 500 msg_db /\
  (forall to body, ~ In (EvSend to body) (new_events empty_st s1)).
Proof.
  generalize (persistence_failure_aborts sample_config
    (sample_world (Some [Some [text_A]]) false true) sample_url sample_from
    sample_hex1 sample_hex2 sample_today empty_st invoice_A ltac:(discriminate)).
  destruct (whatsapp_webhook _ _ _ _ _ _ _ _) as [resp s1] eqn:E.
  intros H; apply H; [|reflexivity].
  vm_compute in E; injection E as <- <-; vm_compute; tauto.
Defined.

(** ** Cleanup *)

Lemma try_with_remove (cfg : config) (w : world) b url from f ih today :
  webhook_try cfg (with_remove w b) url from f ih today =
  webhook_try cfg w url from f ih today.
Proof. reflexivity. Qed.

Lemma try_with_send (cfg : config) (w : world) b url from f ih today :
  webhook_try cfg (with_send w b) url from f ih today =
  webhook_try cfg w url from f ih today.
Proof. reflexivity. Qed.

Lemma try_appends_log (cfg : config) (w : world) url from f ih today (s : st) :
  exists mid, log (snd (webhook_try cfg w url from f ih today s)) = log s ++ mid.
Proof.
  unfold webhook_try; unfold_monad; cbv beta iota zeta;
    repeat (split_world; cbv beta iota zeta); simpl in *.
  all: try (exists []; rewrite app_nil_r; reflexivity).
  all: eexists; rewrite <- ?app_assoc; reflexivity.
Qed.

Lemma existsb_after_delete (f : str) (l : list str) :
  existsb (str_eqb f) (List.filter (fun g => negb (str_eqb f g)) l) = false.
Proof.
  induction l as [|g l IH]; simpl; [reflexivity|].
  destruct (str_eqb f g) eqn:E; simpl; [exact IH|].
  rewrite E; exact IH.
Qed.

Lemma finally_spec (w : world) (f : str) (s1 : st) :
  let '(_, s2) := webhook_finally w f s1 in
  (log s2 = log s1 ++ [EvExists f; EvRemove f] \/
   (log s2 = log s1 ++ [EvExists f] /\ file_exists f s2 = false)) /\
  (remove_ok w f = true -> file_exists f s2 = false).
Proof.
  unfold webhook_finally; unfold_monad.
  destruct (file_exists f s1) eqn:Ex; simpl.
  - destruct (remove_ok w f) eqn:Rm; simpl.
    + split; [left; rewrite <- app_assoc; reflexivity|].
      intros _; unfold file_exists; simpl; apply existsb_after_delete.
    + split; [left; rewrite <- app_assoc; reflexivity|discriminate].
  - split; [right; split; [reflexivity|exact Ex]|intros _; exact Ex].
Qed.

Lemma response_without_remove (cfg : config) (w : world) b media from fh ih today s0 :
  fst (whatsapp_webhook cfg (with_remove w b) media from fh ih today s0) =
  fst (whatsapp_webhook cfg w media from fh ih today s0).
Proof.
  unfold whatsapp_webhook.
  destruct media as [[|c u]|]; try reflexivity.
  rewrite try_with_remove.
  destruct (webhook_try cfg w _ _ _ _ _ s0) as [r s1].
  destruct (webhook_finally (with_remove w b) _ s1), (webhook_finally w _ s1).
  reflexivity.
Qed.

(** C3: once the scratch name exists (a media reference is present), the
    last effects of the request are the existence check of the scratch file
    and, when it exists, its removal; after a successful removal the file is
    gone; and the outcome of [os.remove] does not change the response. *)
Theorem cleanup_always (cfg : config) (w : world) (url from : str)
    (file_hex inv_hex : str) (today : date) (s0 : st) :
  url <> [] ->
  let f := scratch_name file_hex in
  let '(resp, s1) := whatsapp_webhook cfg w (Some url) from file_hex inv_hex today s0 in
  (exists mid,
     new_events s0 s1 = mid ++ [EvExists f; EvRemove f] \/
     (new_events s0 s1 = mid ++ [EvExists f] /\ file_exists f s1 = false)) /\
  (remove_ok w f = true -> file_exists f s1 = false) /\
  (forall b, fst (whatsapp_webhook cfg (with_remove w b) (Some url) from file_hex
                   inv_hex today s0) = resp).
Proof.
  intros Hurl f.
  destruct (whatsapp_webhook cfg w (Some url) from file_hex inv_hex today s0)
    as [resp s2] eqn:E.
  split; [|split].
  3: intros b; rewrite response_without_remove, E; reflexivity.
  all: unfold whatsapp_webhook in E.
  all: destruct url as [|c u]; [congruence|].
  all: fold f in E.
  all: destruct (try_appends_log cfg w (c :: u) from f inv_hex today s0) as [mid Hmid].
  all: destruct (webhook_try cfg w (c :: u) from f inv_hex today s0) as [r s1].
  all: simpl in Hmid.
  all: pose proof (finally_spec w f s1) as Hfin.
  all: destruct (webhook_finally w f s1) as [u2 s3].
  all: injection E as _ <-.
  - exists mid; destruct Hfin as [[Hl|[Hl He]] _].
    + left; unfold new_events; rewrite Hl, Hmid, <- app_assoc, skipn_app,
        skipn_all, Nat.sub_diag; reflexivity.
    + right; split; [|exact He].
      unfold new_events; rewrite Hl, Hmid, <- app_assoc, skipn_app,
        skipn_all, Nat.sub_diag; reflexivity.
  - exact (proj2 Hfin).
Qed.

Lemma cleanup_always_witness :
  let f := scratch_name sample_hex1 in
  let '(resp, s1) :=
    whatsapp_webhook sample_config (sample_world None true true) (Some sample_url)
      sample_from sample_hex1 sample_hex2 sample_today empty_st in
  (exists mid,
     new_events empty_st s1 = mid ++ [EvExists f; EvRemove f] \/
     (new_events empty_st s1 = mid ++ [EvExists f] /\ file_exists f s1 = false)) /\
  (remove_ok (sample_world None true true) f = true -> file_exists f s1 = false) /\
  (forall b, fst (whatsapp_webhook sample_config
                   (with_remove (sample_world None true true) b) (Some sample_url)
                   sample_from sample_hex1 sample_hex2 sample_today empty_st) = resp).
Proof. apply cleanup_always; discriminate. Defined.

(** ** Notification failure *)

Lemma webhook_with_send (cfg : config) (w : world) b media from fh ih today s0 :
  whatsapp_webhook cfg (with_send w b) media from fh ih today s0 =
  whatsapp_webhook cfg w media from fh ih today s0.
Proof. reflexivity. Qed.

(** C5 as stated fails: persistence succeeds and the notification fails,
    but the recognized total overflows to [+inf] and rendering the success
    response raises, so the answer is the generic 500. *)
Lemma notification_failure_counterexample :
  let w := sample_world (Some [Some [text_huge_total]]) true false in
  let '(resp, s1) :=
    whatsapp_webhook sample_config w (Some sample_url) sample_from sample_hex1
      sample_hex2 sample_today empty_st in
  let inv := extract_invoice_data sample_hex2 sample_today text_huge_total in
  In (EvSave inv sample_from) (new_events empty_st s1) /\
  db_insert w (DATABASE_URL sample_config) inv sample_from = true /\
  twilio_send w (TWILIO_ACCOUNT_SID sample_config) (TWILIO_AUTH_TOKEN sample_config)
    (TWILIO_PHONE_NUMBER sample_config) sample_from
    (confirmation_body (invoice_id inv)) = false /\
  resp = JSONError 500 msg_unexpected.
Proof. vm_compute; split; [do 3 right; left; reflexivity|repeat split]. Qed.

(** C5 (amended): when persistence of the request's record succeeds, the
    outcome of the notification never changes the response; the response is
    the success payload with the record's fields when its total amount is
    finite, and the generic 500 (JSON rendering refuses [inf]) otherwise. *)
Theorem notification_failure_isolated (cfg : config) (w : world) (url from : str)
    (file_hex inv_hex : str) (today : date) (s0 : st) (inv : invoice) :
  url <> [] ->
  let '(resp, s1) := whatsapp_webhook cfg w (Some url) from file_hex inv_hex today s0 in
  In (EvSave inv from) (new_events s0 s1) ->
  db_insert w (DATABASE_URL cfg) inv from = true ->
  (forall b, fst (whatsapp_webhook cfg (with_send w b) (Some url) from file_hex
                   inv_hex today s0) = resp) /\
  resp = (if is_finite_float (total_amount inv)
          then JSONSuccess (invoice_id inv) (total_amount inv) (date_iso (due_date inv))
          else JSONError 500 msg_unexpected).
Proof.
  intros Hurl.
  destruct (whatsapp_webhook cfg w (Some url) from file_hex inv_hex today s0)
    as [resp s1] eqn:E.
  intros Hin Hdb; split.
  { intros b; rewrite webhook_with_send, E; reflexivity. }
  revert Hin Hdb; revert E.
  destruct url as [|c url]; [congruence|].
  run_webhook; intros E; injection E as <- <-; new_events_simpl.
  all: intros Hin Hdb.
  all: repeat (destruct Hin as [Hin|Hin]; [try discriminate Hin|]);
       try contradiction.
  all: injection Hin as <-; try congruence.
  all: match goal with H : is_finite_float _ = _ |- _ => rewrite H end;
       reflexivity.
Qed.

Lemma notification_failure_isolated_witness :
  let w := sample_world (Some [Some [text_A]]) true false in
  let '(resp, s1) :=
    whatsapp_webhook sample_config w (Some sample_url) sample_from sample_hex1
      sample_hex2 sample_today empty_st in
  resp = JSONSuccess (str_of "INV-55") float_250 (str_of "2025-05-01").
Proof.
  generalize (notification_failure_isolated sample_config
    (sample_world (Some [Some [text_A]]) true false) sample_url sample_from
    sample_hex1 sample_hex2 sample_today empty_st invoice_A ltac:(discriminate)).
  cbv zeta.
  destruct (whatsapp_webhook _ _ _ _ _ _ _ _) as [resp s1] eqn:E.
  intros H; destruct H as [_ H]; [| |rewrite H; reflexivity].
  - vm_compute in E; injection E as <- <-; vm_compute; tauto.
  - reflexivity.
Defined.

(** ** Missing configuration *)

(** C8 as stated fails: with the database connection string absent (and
    the Twilio credentials present) nothing aborts up front; the media is
    downloaded, and an image without text is answered 400, not with a
    500 configuration error. *)
Lemma missing_db_url_counterexample :
  let '(resp, s1) :=
    whatsapp_webhook config_no_db (sample_world None true true) (Some sample_url)
      sample_from sample_hex1 sample_hex2 sample_today empty_st in
  DATABASE_URL config_no_db = None /\
  In (EvGet sample_url) (new_events empty_st s1) /\
  resp = JSONError 400 msg_no_text.
Proof. vm_compute; split; [reflexivity|split; [left; reflexivity|reflexivity]]. Qed.

(** C8 (amended): a missing or empty Twilio account SID or auth token is
    answered with the 500 configuration error before any external call;
    when both are present the media download is attempted whatever the
    database connection string is. *)
Theorem missing_credentials_checked_first (cfg : config) (w : world)
    (url from file_hex inv_hex : str) (today : date) (s0 : st) :
  url <> [] ->
  let '(resp, s1) := whatsapp_webhook cfg w (Some url) from file_hex inv_hex today s0 in
  (falsy (TWILIO_ACCOUNT_SID cfg) || falsy (TWILIO_AUTH_TOKEN cfg) = true ->
   resp = JSONError 500 msg_config /\
   forallb (fun e => negb (external_call e)) (new_events s0 s1) = true) /\
  (falsy (TWILIO_ACCOUNT_SID cfg) || falsy (TWILIO_AUTH_TOKEN cfg) = false ->
   In (EvGet url) (new_events s0 s1)).
Proof.
  intros Hurl; destruct url as [|c url]; [congruence|].
  run_webhook; new_events_simpl.
  all: split; intros H; try discriminate H.
  all: try (split; reflexivity).
  all: left; reflexivity.
Qed.

Lemma missing_credentials_checked_first_witness :
  let cfg := mkConfig (Some (str_of "postgresql://invoices")) None None None in
  let '(resp, s1) :=
    whatsapp_webhook cfg (sample_world None true true) (Some sample_url)
      sample_from sample_hex1 sample_hex2 sample_today empty_st in
  resp = JSONError 500 msg_config /\
  forallb (fun e => negb (external_call e)) (new_events empty_st s1) = true.
Proof.
  generalize (missing_credentials_checked_first
    (mkConfig (Some (str_of "postgresql://invoices")) None None None)
    (sample_world None true true) sample_url sample_from sample_hex1 sample_hex2
    sample_today empty_st ltac:(discriminate)).
  cbv zeta.
  destruct (whatsapp_webhook _ _ _ _ _ _ _ _) as [resp s1].
  intros [H _]; apply H; reflexivity.
Defined.

(** ** Scratch names *)

Lemma scratch_name_inj (h1 h2 : str) :
  scratch_name h1 = scratch_name h2 -> h1 = h2.
Proof.
  unfold scratch_name; intros H.
  apply app_inv_head in H; apply app_inv_tail in H; exact H.
Qed.

Lemma NoDup_map_scratch (l : list str) :
  NoDup l -> NoDup (map scratch_name l).
Proof.
  induction 1 as [|h l Hnotin _ IH]; simpl; constructor; [|exact IH].
  intros Hin; apply in_map_iff in Hin as [h' [Heq Hin]].
  apply scratch_name_inj in Heq; subst; contradiction.
Qed.

Lemma try_files_touched (cfg : config) (w : world) url from f ih today (s : st) :
  exists mid,
    log (snd (webhook_try cfg w url from f ih today s)) = log s ++ mid /\
    forall g, In g (files_touched mid) -> g = f.
Proof.
  unfold webhook_try; unfold_monad; cbv beta iota zeta;
    repeat (split_world; cbv beta iota zeta); simpl in *.
  all: try (exists []; split; [rewrite app_nil_r; reflexivity|simpl; tauto]).
  all: eexists; split; [rewrite <- ?app_assoc; reflexivity|].
  all: simpl; intros g Hg; repeat (destruct Hg as [Hg|Hg]; [now subst|]); contradiction.
Qed.

Lemma files_touched_app (l1 l2 : list event) :
  files_touched (l1 ++ l2) = files_touched l1 ++ files_touched l2.
Proof. unfold files_touched; apply flat_map_app. Qed.

Lemma webhook_files_touched (cfg : config) (w : world) media from fh ih today (s0 : st) :
  forall g, In g (files_touched
                    (new_events s0 (snd (whatsapp_webhook cfg w media from fh ih today s0)))) ->
            g = scratch_name fh.
Proof.
  unfold whatsapp_webhook.
  destruct media as [[|c u]|].
  1,3: unfold new_events; simpl; rewrite skipn_all; simpl; tauto.
  destruct (try_files_touched cfg w (c :: u) from (scratch_name fh) ih today s0)
    as [mid [Hmid Hf]].
  destruct (webhook_try cfg w (c :: u) from (scratch_name fh) ih today s0) as [r s1].
  simpl in Hmid.
  pose proof (finally_spec w (scratch_name fh) s1) as Hfin.
  destruct (webhook_finally w (scratch_name fh) s1) as [u2 s2]; simpl.
  destruct Hfin as [Hl _].
  intros g; unfold new_events.
  destruct Hl as [Hl|[Hl _]]; rewrite Hl, Hmid, <- app_assoc, skipn_app, skipn_all,
    Nat.sub_diag, files_touched_app, in_app_iff.
  all: intros [[]|H]; rewrite skipn_O, files_touched_app, in_app_iff in H;
    destruct H as [H|H]; [auto|]; simpl in H;
    repeat (destruct H as [H|H]; [now subst|]); contradiction.
Qed.

(** C9: requests whose [uuid4().hex] values are pairwise distinct get
    pairwise distinct scratch names, each built from that value alone (not
    from the request's fields), and every run reads, writes, checks or
    removes no file but its own scratch file. *)
Theorem scratch_names_distinct (cfg : config) (ws : request -> world)
    (today : date) (s0 : st) (reqs : list request) :
  NoDup (map rq_file_hex reqs) ->
  NoDup (map (fun rq => scratch_name (rq_file_hex rq)) reqs) /\
  Forall (fun rq =>
    forall g, In g (files_touched (new_events s0
      (snd (whatsapp_webhook cfg (ws rq) (rq_media rq) (rq_from rq)
              (rq_file_hex rq) (rq_inv_hex rq) today s0)))) ->
    g = scratch_name (rq_file_hex rq)) reqs.
Proof.
  intros Hnd; split.
  - rewrite <- (map_map rq_file_hex scratch_name).
    apply NoDup_map_scratch; exact Hnd.
  - apply Forall_forall; intros rq _; apply webhook_files_touched.
Qed.

Lemma scratch_names_distinct_witness :
  let reqs := [mkRequest (Some sample_url) sample_from sample_hex1 sample_hex2;
               mkRequest (Some sample_url) sample_from sample_hex2 sample_hex1] in
  NoDup (map (fun rq => scratch_name (rq_file_hex rq)) reqs).
Proof.
  cbv zeta.
  apply (scratch_names_distinct sample_config
           (fun _ => sample_world (Some [Some [text_A]]) true true) sample_today
           empty_st).
  vm_compute; constructor; [intros [H|[]]; discriminate H|].
  constructor; [intros []|constructor].
Defined.

(** ** Totality of the extractor *)

Transparent extract_invoice_data.

Lemma shr_1_nonneg (mrs : shr_record) :
  (0 <= shr_m mrs)%Z -> (0 <= shr_m (shr_1 mrs))%Z.
Proof. destruct mrs as [m r s]; simpl; destruct m as [|[p|p|]|p]; simpl; lia. Qed.

Lemma iter_shr_1_nonneg (p : positive) (mrs : shr_record) :
  (0 <= shr_m mrs)%Z -> (0 <= shr_m (SpecFloat.iter_pos shr_1 p mrs))%Z.
Proof.
  revert mrs; induction p as [p IH|p IH|]; intros mrs H; simpl;
    auto using shr_1_nonneg.
Qed.

Lemma shr_fexp_nonneg (m e : Z) (l : location) :
  (0 <= m)%Z -> (0 <= shr_m (fst (shr_fexp prec emax m e l)))%Z.
Proof.
  intros Hm; unfold shr_fexp, shr.
  assert (H0 : (0 <= shr_m (shr_record_of_loc m l))%Z)
    by (destruct l as [|[]]; simpl; exact Hm).
  destruct (_ - e)%Z; simpl; auto using iter_shr_1_nonneg.
Qed.

Lemma round_aux_nonneg (mx ex : Z) (lx : location) :
  (0 <= mx)%Z -> nonneg_float (binary_round_aux prec emax false mx ex lx) = true.
Proof.
  intros Hm; unfold binary_round_aux.
  pose proof (shr_fexp_nonneg mx ex lx Hm) as H1.
  destruct (shr_fexp prec emax mx ex lx) as [mrs' e'] eqn:E1; simpl in H1.
  assert (H2 : (0 <= round_nearest_even (shr_m mrs') (loc_of_shr_record mrs'))%Z).
  { unfold round_nearest_even.
    destruct (loc_of_shr_record mrs') as [|[]]; try lia.
    destruct (Z.even _); lia. }
  pose proof (shr_fexp_nonneg _ e' loc_Exact H2) as H3.
  destruct (shr_fexp prec emax _ e' loc_Exact) as [mrs'' e''] eqn:E2; simpl in H3.
  destruct (shr_m mrs'') as [|p|p]; simpl; [reflexivity| |lia].
  destruct (Z.leb e'' _); reflexivity.
Qed.

Lemma digits_value_nonneg (l : str) : (0 <= digits_value l)%Z.
Proof.
  unfold digits_value.
  assert (H : forall acc, (0 <= acc)%Z ->
            (0 <= fold_left (fun acc c => acc * 10 + digit_val c) l acc)%Z).
  { induction l as [|c l IH]; intros acc Hacc; simpl; [exact Hacc|].
    apply IH; pose proof (digit_val_nonneg c); lia. }
  apply H; lia.
Qed.

Lemma decimal_to_float_nonneg (ip fp : str) :
  nonneg_float (decimal_to_float ip fp) = true.
Proof.
  unfold decimal_to_float.
  pose proof (digits_value_nonneg (ip ++ fp)) as Hm.
  destruct fp as [|c fp].
  - destruct (digits_value (ip ++ [])) as [|p|p]; [reflexivity| |lia].
    unfold binary_normalize, binary_round.
    destruct (shl_align _ _ _) as [mz ez].
    apply round_aux_nonneg; lia.
  - destruct (digits_value (ip ++ c :: fp)) as [|p|p]; [reflexivity| |lia].
    unfold SFdiv_core_binary; cbv zeta.
    set (k := (10 ^ Z.of_nat (List.length (c :: fp)))%Z).
    assert (Hk : (0 < k)%Z) by (apply Z.pow_pos_nonneg; lia).
    set (s := (0 - 0 - Z.min _ _)%Z).
    set (m' := match s with Zpos _ => Z.shiftl (Zpos p) s | Z0 => Zpos p | Zneg _ => 0%Z end).
    assert (Hm' : (0 <= m')%Z).
    { unfold m'; destruct s; try lia. apply Z.shiftl_nonneg; lia. }
    assert (Hq : (0 <= m' / k)%Z) by (apply Z.div_pos; lia).
    unfold Z.div in Hq.
    destruct (Z.div_eucl m' k) as [q r] eqn:Ediv.
    apply round_aux_nonneg; exact Hq.
Qed.

Lemma some_decimal_nonneg (ip fp : str) (f : spec_float) :
  Some (decimal_to_float ip fp) = Some f -> nonneg_float f = true.
Proof. intros H; injection H; intros <-; apply decimal_to_float_nonneg. Qed.

Lemma py_float_nonneg (s : str) (f : spec_float) :
  py_float s = Some f -> nonneg_float f = true.
Proof.
  unfold py_float; cbv zeta.
  generalize ((fix pre (l : list N) : list N :=
                 match l with
                 | [] => []
                 | c :: l' => if is_digit c then c :: pre l' else []
                 end) s) as ip; intros ip.
  destruct (skipn _ s) as [|c fp].
  - destruct ip as [|d ip]; [discriminate|].
    apply some_decimal_nonneg.
  - destruct ((c =? 46) && forallb is_digit fp); [|discriminate].
    destruct ip as [|d ip], fp as [|e fp];
      try discriminate; apply some_decimal_nonneg.
Qed.

Lemma find_amount_nonneg (pats : list rx) (text : str) (f : spec_float) :
  find_amount pats text = Some f -> nonneg_float f = true.
Proof.
  induction pats as [|p ps IH]; simpl; [discriminate|].
  destruct (search_group1 p text) as [g|]; [|exact IH].
  destruct (py_float (remove_commas g)) as [f'|] eqn:E; [|exact IH].
  intros H; injection H; intros <-; exact (py_float_nonneg _ _ E).
Qed.

Lemma strptime_valid (tok : str) (f : layout) (d : date) :
  strptime tok f = Some d -> valid_date d = true.
Proof.
  unfold strptime.
  destruct (re_match (layout_rx f) tok) as [[[|x rest] caps]|]; try discriminate.
  destruct caps as [|g1 [|g2 [|g3 [|g4 caps]]]]; try discriminate.
  match goal with |- context [if valid_date ?e then _ else _] =>
    destruct (valid_date e) eqn:E end; [|discriminate].
  intros H; injection H; intros <-; exact E.
Qed.

Lemma parse_layouts_valid (fs : list layout) (tok : str) (d : date) :
  parse_layouts fs tok = Some d -> valid_date d = true.
Proof.
  induction fs as [|f fs IH]; simpl; [discriminate|].
  destruct (strptime tok f) as [d'|] eqn:E; [|exact IH].
  intros H; injection H; intros <-; exact (strptime_valid _ _ _ E).
Qed.

Lemma find_due_date_valid (pats : list rx) (text : str) (d : date) :
  find_due_date pats text = Some d -> valid_date d = true.
Proof.
  induction pats as [|p ps IH]; cbn [find_due_date]; [discriminate|].
  destruct (search_group1 p text) as [tok|]; [|exact IH].
  destruct (parse_layouts layouts tok) as [d'|] eqn:E; [|exact IH].
  intros H; injection H; intros <-; exact (parse_layouts_valid _ _ _ E).
Qed.

(** C1 (as amended): for every recognized text, [extract_invoice_data]
    returns a record whose invoice id is a non-empty string, whose total is
    a non-negative float ([+0.0], a positive finite number, or [+inf] when
    the captured number is beyond the binary64 range), and whose due date
    is a valid calendar date, provided the processing date used as the
    fallback is itself a valid date. *)
Theorem extract_totality (uuid_hex : str) (today : date) (text : str) :
  valid_date today = true ->
  let inv := extract_invoice_data uuid_hex today text in
  invoice_id inv <> [] /\ nonneg_float (total_amount inv) = true
  /\ valid_date (due_date inv) = true.
Proof.
  intros Ht; cbv zeta; unfold extract_invoice_data;
    cbn [invoice_id total_amount due_date]; split; [|split].
  - destruct (find_invoice_id invoice_patterns text) as [[|c g]|];
      cbn; discriminate.
  - destruct (find_amount amount_patterns text) as [f|] eqn:E;
      [exact (find_amount_nonneg _ _ _ E)|reflexivity].
  - destruct (find_due_date date_patterns text) as [d|] eqn:E;
      [exact (find_due_date_valid _ _ _ E)|exact Ht].
Qed.

Lemma extract_totality_witness :
  valid_date sample_today = true /\
  (let inv := extract_invoice_data sample_hex1 sample_today text_huge_total in
   invoice_id inv <> [] /\ nonneg_float (total_amount inv) = true
   /\ valid_date (due_date inv) = true).
Proof.
  split; [reflexivity|].
  apply extract_totality; reflexivity.
Defined.

(** Counterexample to C1 as stated: the total of [text_huge_total] is
    [float('1' + '0' * 309)], which is [inf], not a finite number. *)
Lemma extract_total_overflow_counterexample :
  total_amount (extract_invoice_data sample_hex1 sample_today text_huge_total)
  = S754_infinity false
  /\ is_finite_float
       (total_amount (extract_invoice_data sample_hex1 sample_today text_huge_total))
     = false.
Proof. vm_compute; split; reflexivity. Qed.

(** ** The due-date loop *)

Lemma re_search_cons (r : rx) (x : N) (s : str) :
  re_search r (x :: s) =
  match re_match r (x :: s) with
  | Some (_, caps) => Some caps
  | None => re_search r s
  end.
Proof. reflexivity. Qed.

(** [re.search] passes over a prefix at none of whose positions the
    pattern matches. *)
Lemma re_search_skip (r : rx) (p s : str) :
  (forall i, (i < List.length p)%nat -> re_match r (skipn i (p ++ s)) = None) ->
  re_search r (p ++ s) = re_search r s.
Proof.
  induction p as [|x p IH]; intros H; [reflexivity|].
  rewrite <- app_comm_cons, re_search_cons.
  rewrite (H 0%nat ltac:(simpl; lia) : re_match r (x :: p ++ s) = None).
  apply IH; intros i Hi.
  apply (H (S i)); simpl; lia.
Qed.

Lemma parse_layouts_none (fs : list layout) (tok : str) :
  (forall f, In f fs -> strptime tok f = None) -> parse_layouts fs tok = None.
Proof.
  induction fs as [|f fs IH]; intros H; [reflexivity|].
  cbn [parse_layouts]; rewrite (H f (or_introl eq_refl)).
  apply IH; intros f' Hf'; apply H; right; exact Hf'.
Qed.

Lemma find_due_date_none (pats : list rx) (text : str) :
  (forall p tok, In p pats -> search_group1 p text = Some tok ->
                 parse_layouts layouts tok = None) ->
  find_due_date pats text = None.
Proof.
  induction pats as [|p ps IH]; intros H; [reflexivity|].
  cbn [find_due_date].
  assert (IH' : find_due_date ps text = None)
    by (apply IH; intros p' tok Hp'; apply H; right; exact Hp').
  destruct (search_group1 p text) as [tok|] eqn:E; [|exact IH'].
  rewrite (H p tok (or_introl eq_refl) E); exact IH'.
Qed.

(** ** The matcher is sound for [accepts] *)

Lemma rep_try_some {A : Type} (n lo : nat) (s : str) (caps : list str)
    (k : str -> list str -> option A) (v : A) :
  rep_try n lo s caps k = Some v ->
  exists m, (lo <= m <= n)%nat /\ k (skipn m s) caps = Some v.
Proof.
  induction n as [|n IH]; cbn [rep_try];
    destruct (Nat.ltb _ lo) eqn:Hlt; try discriminate;
    apply Nat.ltb_ge in Hlt.
  - destruct (k (skipn 0 s) caps) eqn:E; [|discriminate].
    intros H; injection H; intros <-; exists 0%nat; split; [lia|exact E].
  - destruct (k (skipn (S n) s) caps) eqn:E.
    + intros H; injection H; intros <-; exists (S n); split; [lia|exact E].
    + intros H; destruct (IH H) as [m [Hm Hk]]; exists m; split; [lia|exact Hk].
Qed.

Lemma run_len_spec (c : N -> bool) (hi : option nat) (s : str) (m : nat) :
  (m <= run_len c hi s)%nat ->
  Forall (fun x => c x = true) (firstn m s) /\ (m <= List.length s)%nat /\
  match hi with Some h => (m <= h)%nat | None => True end.
Proof.
  revert hi m; induction s as [|x s IH]; intros hi m Hm.
  - destruct hi as [[|h]|]; simpl in Hm; replace m with 0%nat by lia;
      repeat split; simpl; auto; lia.
  - destruct m as [|m].
    { repeat split; simpl; auto; [lia|destruct hi; auto; lia]. }
    destruct hi as [[|h]|]; simpl in Hm; [lia| |];
      (destruct (c x) eqn:Ec; [|lia]).
    + destruct (IH (Some h) m ltac:(lia)) as [H1 [H2 H3]].
      repeat split; simpl; auto; lia.
    + destruct (IH None m ltac:(lia)) as [H1 [H2 H3]].
      repeat split; simpl; auto; lia.
Qed.

Lemma mt_sound {A : Type} (r : rx) :
  forall (s : str) (caps : list str) (k : str -> list str -> option A) (v : A),
  mt r s caps k = Some v ->
  exists pre rest caps', s = pre ++ rest /\ accepts r pre /\ k rest caps' = Some v.
Proof.
  induction r as [c|r1 IH1 r2 IH2|r1 IH1 r2 IH2|r1 IH1|c lo hi|r1 IH1];
    intros s caps k v H; cbn [mt] in H.
  - destruct s as [|x s]; [discriminate|].
    destruct (c x) eqn:Ec; [|discriminate].
    exists [x], s, caps; split; [reflexivity|split; [constructor; exact Ec|exact H]].
  - destruct (IH1 _ _ _ _ H) as [u [rest1 [caps1 [E1 [A1 K1]]]]].
    destruct (IH2 _ _ _ _ K1) as [w [rest2 [caps2 [E2 [A2 K2]]]]].
    exists (u ++ w), rest2, caps2; split; [subst; apply app_assoc|].
    split; [constructor; assumption|exact K2].
  - destruct (mt r1 s caps k) eqn:E.
    + injection H; intros <-.
      destruct (IH1 _ _ _ _ E) as [u [rest [caps' [E1 [A1 K1]]]]].
      exists u, rest, caps'; split; [exact E1|split; [apply AAltL; exact A1|exact K1]].
    + destruct (IH2 _ _ _ _ H) as [u [rest [caps' [E1 [A1 K1]]]]].
      exists u, rest, caps'; split; [exact E1|split; [apply AAltR; exact A1|exact K1]].
  - destruct (mt r1 s caps k) eqn:E.
    + injection H; intros <-.
      destruct (IH1 _ _ _ _ E) as [u [rest [caps' [E1 [A1 K1]]]]].
      exists u, rest, caps'; split; [exact E1|split; [apply AOptSome; exact A1|exact K1]].
    + exists [], s, caps; split; [reflexivity|split; [apply AOptNone|exact H]].
  - destruct (rep_try_some _ _ _ _ _ _ H) as [m [Hm K]].
    destruct (run_len_spec c hi s m ltac:(lia)) as [F [Hl Hh]].
    exists (firstn m s), (skipn m s), caps.
    split; [symmetry; apply firstn_skipn|split; [|exact K]].
    assert (Hlen : List.length (firstn m s) = m)
      by (rewrite length_firstn; lia).
    constructor; [exact F|lia|rewrite Hlen; exact Hh].
  - destruct (IH1 _ _ _ _ H) as [u [rest [caps' [E1 [A1 K1]]]]].
    eexists u, rest, _; split; [exact E1|split; [constructor; exact A1|exact K1]].
Qed.

(** ** [%Y] takes exactly four digits *)

Lemma accepts_Y (u : str) :
  accepts Y_rx u ->
  List.length u = 4%nat /\ Forall (fun x => is_digit x = true) u.
Proof.
  unfold Y_rx; cbn [seqs]; intros H.
  inversion H as [| ? ? u1 v1 Hq1 Hq2 | | | | | |]; subst.
  inversion Hq1; subst.
  inversion Hq2 as [| ? ? u2 v2 Hq3 Hq4 | | | | | |]; subst.
  inversion Hq3; subst.
  inversion Hq4 as [| ? ? u3 v3 Hq5 Hq6 | | | | | |]; subst.
  inversion Hq5; subst; inversion Hq6; subst.
  split; [reflexivity|repeat constructor; assumption].
Qed.

Lemma accepts_layout_tail (f : layout) (u : str) :
  accepts (layout_rx f) u ->
  exists x y, u = x ++ y /\ List.length y = 4%nat /\
              Forall (fun c => is_digit c = true) y.
Proof.
  unfold layout_rx; destruct (order f); cbn [seqs]; intros H;
    inversion H as [| ? ? u1 v1 Hq1 Hq2 | | | | | |]; subst;
    inversion Hq2 as [| ? ? u2 v2 Hq3 Hq4 | | | | | |]; subst;
    inversion Hq4 as [| ? ? u3 v3 Hq5 Hq6 | | | | | |]; subst;
    inversion Hq6 as [| ? ? u4 v4 Hq7 Hq8 | | | | | |]; subst;
    inversion Hq8 as [| | | | | | | ? ? Hq9]; subst;
    destruct (accepts_Y _ Hq9) as [Hl Hd];
    eexists (u1 ++ u2 ++ u3 ++ u4), _;
    (split; [rewrite <- !app_assoc; reflexivity|split; [exact Hl|exact Hd]]).
Qed.

Lemma digit_prefix_app (l m : str) :
  Forall (fun c => is_digit c = true) l -> digit_prefix (l ++ m) = l ++ digit_prefix m.
Proof.
  induction 1 as [|c l Hc _ IH]; [reflexivity|].
  simpl; rewrite Hc, IH; reflexivity.
Qed.

Lemma year_field_app (x y : str) :
  Forall (fun c => is_digit c = true) y ->
  (List.length y <= List.length (year_field (x ++ y)))%nat.
Proof.
  intros Hy; unfold year_field; rewrite rev_app_distr.
  rewrite digit_prefix_app by (apply Forall_rev; exact Hy).
  rewrite rev_app_distr, rev_involutive, length_app; lia.
Qed.

(** No layout parses a token whose year field has fewer than four digits. *)
Lemma strptime_short_year (tok : str) (f : layout) :
  (List.length (year_field tok) <= 3)%nat -> strptime tok f = None.
Proof.
  intros Hy; unfold strptime.
  destruct (re_match (layout_rx f) tok) as [[[|x rest] caps]|] eqn:E;
    try reflexivity.
  exfalso; unfold re_match in E.
  destruct (mt_sound _ _ _ _ _ E) as [pre [rest' [caps' [Es [Ha Hk]]]]].
  injection Hk as Hr _; subst rest'.
  destruct (accepts_layout_tail _ _ Ha) as [x [y [Ep [Hl Hd]]]].
  rewrite app_nil_r in Es; subst.
  pose proof (year_field_app x y Hd); lia.
Qed.

(** ** The labelled due date *)

Lemma run_len_zero (c : N -> bool) (s : str) : run_len c (Some 0%nat) s = 0%nat.
Proof. destruct s; reflexivity. Qed.

Lemma find_due_date_label (p r : str) :
  (forall i, (i < List.length p)%nat ->
     re_match due_date_pattern (skipn i (p ++ label_due_date ++ r)) = None) ->
  find_due_date date_patterns (p ++ label_due_date ++ r) = Some (mkDate 2024 3 15).
Proof.
  intros H; unfold date_patterns; cbn [find_due_date].
  unfold search_group1 at 1.
  rewrite re_search_skip by exact H.
  assert (Hm : re_search due_date_pattern (label_due_date ++ r)
               = Some [str_of "15/03/2024"]).
  { unfold re_search, re_match, label_due_date, due_date_pattern; simpl.
    rewrite run_len_zero.
    match goal with |- context [firstn ?m _] => replace m with 10%nat end;
      [reflexivity|].
    transitivity ((10 + List.length r) - List.length r)%nat; [lia|reflexivity]. }
  rewrite Hm; reflexivity.
Qed.

(** Counterexample to C7 as stated: this text contains
    [Due Date: 15/03/2024], but the first due-date pattern, searched over the
    whole text, matches the earlier [Due by 01/02/2023] first, so the due
    date is 2023-02-01. *)
Lemma two_due_dates_counterexample :
  text_two_due_dates = str_of "Due by 01/02/2023 " ++ label_due_date ++ []
  /\ due_date (extract_invoice_data sample_hex1 sample_today text_two_due_dates)
     = mkDate 2023 2 1.
Proof. split; vm_compute; reflexivity. Qed.

(** C7 (as amended): (a) a text made of a prefix [p], the label
    [Due Date: 15/03/2024] and any rest [r] has due date 2024-03-15 (the
    day-first layout [%d/%m/%Y] is tried first), provided the first
    due-date pattern [due\s*(?:date|by)?\s*:?\s*(date)] matches at no
    position before the label (so the search reaches the label); (b) when every
    token that a due-date pattern captures is refused by all six layouts,
    the due date is the processing date. *)
Theorem due_date_label_and_fallback (uuid_hex : str) (today : date) :
  (forall p r : str,
     (forall i, (i < List.length p)%nat ->
        re_match due_date_pattern (skipn i (p ++ label_due_date ++ r)) = None) ->
     due_date (extract_invoice_data uuid_hex today (p ++ label_due_date ++ r))
     = mkDate 2024 3 15)
  /\ (forall text : str,
        (forall pat tok, In pat date_patterns -> search_group1 pat text = Some tok ->
                         parse_layouts layouts tok = None) ->
        due_date (extract_invoice_data uuid_hex today text) = today).
Proof.
  split.
  - intros p r H; unfold extract_invoice_data; cbn [due_date].
    rewrite (find_due_date_label p r H); reflexivity.
  - intros text H; unfold extract_invoice_data; cbn [due_date].
    rewrite (find_due_date_none _ _ H); reflexivity.
Qed.

Lemma due_date_label_and_fallback_witness :
  due_date (extract_invoice_data sample_hex1 sample_today
              (str_of "Overdue. " ++ label_due_date ++ str_of " Total: 9"))
  = mkDate 2024 3 15
  /\ due_date (extract_invoice_data sample_hex1 sample_today
                 (str_of "Due: 31/02/2024")) = sample_today.
Proof.
  split.
  - apply (proj1 (due_date_label_and_fallback sample_hex1 sample_today)).
    intros i Hi; vm_compute in Hi.
    do 9 (destruct i as [|i]; [vm_compute; reflexivity|]); lia.
  - apply (proj2 (due_date_label_and_fallback sample_hex1 sample_today)).
    intros pat tok Hp; unfold date_patterns in Hp.
    destruct Hp as [<-|[<-|[<-|[<-|[]]]]]; intros Ht; vm_compute in Ht;
      try discriminate; injection Ht as <-; vm_compute; reflexivity.
Defined.

(** C10: the due-date patterns capture years of two to four digits, but
    every layout reads its year with [%Y], which takes exactly four digits.
    When every token captured by a due-date pattern has a year field of two
    or three digits, no layout parses any of them and the due date is the
    processing date. *)
Theorem short_year_falls_back (uuid_hex : str) (today : date) (text : str) :
  (forall pat tok, In pat date_patterns -> search_group1 pat text = Some tok ->
     (2 <= List.length (year_field tok) <= 3)%nat) ->
  (forall pat tok, In pat date_patterns -> search_group1 pat text = Some tok ->
     parse_layouts layouts tok = None)
  /\ due_date (extract_invoice_data uuid_hex today text) = today.
Proof.
  intros H.
  assert (Hn : forall pat tok, In pat date_patterns ->
                 search_group1 pat text = Some tok ->
                 parse_layouts layouts tok = None).
  { intros pat tok Hp Ht; apply parse_layouts_none; intros f _.
    apply strptime_short_year; destruct (H pat tok Hp Ht); lia. }
  split; [exact Hn|].
  unfold extract_invoice_data; cbn [due_date].
  rewrite (find_due_date_none _ _ Hn); reflexivity.
Qed.

Lemma short_year_falls_back_witness :
  due_date (extract_invoice_data sample_hex1 sample_today
              (str_of "Due Date: 15/03/24")) = sample_today.
Proof.
  apply (short_year_falls_back sample_hex1 sample_today).
  intros pat tok Hp; unfold date_patterns in Hp.
  destruct Hp as [<-|[<-|[<-|[<-|[]]]]]; intros Ht; vm_compute in Ht;
    try discriminate; injection Ht as <-; vm_compute; lia.
Defined.

(** ** Invoice ids keep to the pattern's characters *)

Lemma group_capture (l r : str) :
  firstn (List.length (l ++ r) - List.length r) (l ++ r) = l.
Proof.
  rewrite length_app, Nat.add_sub, firstn_app, Nat.sub_diag, firstn_O, app_nil_r.
  apply firstn_all.
Qed.

Lemma mt_sound_caps {A : Type} (Q : str -> Prop) (r : rx) :
  groups_ok Q r ->
  forall (s : str) (caps : list str) (k : str -> list str -> option A) (v : A),
  Forall Q caps -> mt r s caps k = Some v ->
  exists pre rest caps', s = pre ++ rest /\ accepts r pre /\ Forall Q caps' /\
                         k rest caps' = Some v.
Proof.
  induction r as [c|r1 IH1 r2 IH2|r1 IH1 r2 IH2|r1 IH1|c lo hi|r1 IH1];
    intros Hg s caps k v Hc H; cbn [mt] in H; cbn [groups_ok] in Hg.
  - destruct s as [|x s]; [discriminate|].
    destruct (c x) eqn:Ec; [|discriminate].
    exists [x], s, caps; split; [reflexivity|split; [constructor; exact Ec|auto]].
  - destruct Hg as [G1 G2].
    destruct (IH1 G1 _ _ _ _ Hc H) as [u [rest1 [caps1 [E1 [A1 [C1 K1]]]]]].
    destruct (IH2 G2 _ _ _ _ C1 K1) as [w [rest2 [caps2 [E2 [A2 [C2 K2]]]]]].
    exists (u ++ w), rest2, caps2; split; [subst; apply app_assoc|].
    split; [constructor; assumption|auto].
  - destruct Hg as [G1 G2].
    destruct (mt r1 s caps k) eqn:E.
    + injection H; intros <-.
      destruct (IH1 G1 _ _ _ _ Hc E) as [u [rest [caps' [E1 [A1 K1]]]]].
      exists u, rest, caps'; split; [exact E1|split; [apply AAltL; exact A1|exact K1]].
    + destruct (IH2 G2 _ _ _ _ Hc H) as [u [rest [caps' [E1 [A1 K1]]]]].
      exists u, rest, caps'; split; [exact E1|split; [apply AAltR; exact A1|exact K1]].
  - destruct (mt r1 s caps k) eqn:E.
    + injection H; intros <-.
      destruct (IH1 Hg _ _ _ _ Hc E) as [u [rest [caps' [E1 [A1 K1]]]]].
      exists u, rest, caps'; split; [exact E1|split; [apply AOptSome; exact A1|exact K1]].
    + exists [], s, caps; split; [reflexivity|split; [apply AOptNone|auto]].
  - destruct (rep_try_some _ _ _ _ _ _ H) as [m [Hm K]].
    destruct (run_len_spec c hi s m ltac:(lia)) as [F [Hl Hh]].
    exists (firstn m s), (skipn m s), caps.
    split; [symmetry; apply firstn_skipn|split; [|auto]].
    assert (Hlen : List.length (firstn m s) = m)
      by (rewrite length_firstn; lia).
    constructor; [exact F|lia|rewrite Hlen; exact Hh].
  - destruct Hg as [G1 GQ].
    destruct (IH1 G1 _ _ _ _ Hc H) as [u [rest [caps' [E1 [A1 [C1 K1]]]]]].
    subst s; rewrite group_capture in K1.
    eexists u, rest, _; split; [reflexivity|split; [constructor; exact A1|split; [|exact K1]]].
    apply Forall_app; split; [exact C1|constructor; [apply GQ; exact A1|constructor]].
Qed.

Lemma re_search_caps (Q : str -> Prop) (r : rx) (s : str) (caps : list str) :
  groups_ok Q r -> re_search r s = Some caps -> Forall Q caps.
Proof.
  intros Hg; induction s as [|x s IH]; cbn [re_search].
  - destruct (re_match r []) as [[rest cs]|] eqn:E; [|discriminate].
    intros H; injection H; intros <-.
    destruct (mt_sound_caps Q r Hg _ _ _ _ (Forall_nil _) E)
      as [pre [rest' [caps' [_ [_ [C K]]]]]].
    injection K; intros <- _; exact C.
  - destruct (re_match r (x :: s)) as [[rest cs]|] eqn:E; [|exact IH].
    intros H; injection H; intros <-.
    destruct (mt_sound_caps Q r Hg _ _ _ _ (Forall_nil _) E)
      as [pre [rest' [caps' [_ [_ [C K]]]]]].
    injection K; intros <- _; exact C.
Qed.

Lemma invoice_patterns_groups_ok :
  Forall (groups_ok id_chars) invoice_patterns.
Proof.
  unfold invoice_patterns.
  repeat constructor; cbn; repeat split; auto;
    intros u Hu; inversion Hu; subst; assumption.
Qed.

Lemma py_strip_forall (P : N -> Prop) (s : str) :
  Forall P s -> Forall P (py_strip s).
Proof.
  assert (Hd : forall l, Forall P l ->
            Forall P ((fix drop l := match l with
                                    | c :: l' => if is_space c then drop l' else l
                                    | [] => []
                                    end) l)).
  { induction l as [|c l IH]; intros H; [constructor|].
    inversion H; subst; destruct (is_space c); auto. }
  intros H; unfold py_strip; apply Forall_rev, Hd, Forall_rev, Hd, H.
Qed.

Lemma find_invoice_id_chars (pats : list rx) (text : str) (g : str) :
  Forall (groups_ok id_chars) pats ->
  find_invoice_id pats text = Some g -> id_chars g.
Proof.
  induction pats as [|p ps IH]; cbn [find_invoice_id]; [discriminate|].
  intros Hp; inversion Hp as [|? ? Hg Hps]; subst.
  unfold search_group1.
  destruct (re_search p text) as [[|c cs]|] eqn:E; try (apply IH; assumption).
  intros H; injection H; intros <-.
  pose proof (re_search_caps _ _ _ _ Hg E) as F; inversion F; subst.
  apply py_strip_forall; assumption.
Qed.

Lemma hex_upper_chars (u : str) :
  Forall (fun c => is_lower_hex c = true) u -> id_chars (hex_upper u).
Proof.
  intros H; unfold id_chars, hex_upper; apply Forall_map.
  eapply Forall_impl; [|exact H]; intros c Hc; cbv beta in *.
  unfold is_lower_hex, is_ascii_digit, in_range in *.
  destruct ((97 <=? c) && (c <=? 122)) eqn:Er.
  - apply andb_prop in Er as [E1 E2]; apply N.leb_le in E1, E2.
    assert (Hl : py_lower (c - 32) = c).
    { unfold py_lower.
      replace ((65 <=? c - 32) && (c - 32 <=? 90)) with true
        by (symmetry; apply andb_true_intro; split; apply N.leb_le; lia).
      lia. }
    unfold id_class; rewrite Hl.
    replace ((97 <=? c) && (c <=? 122)) with true
      by (symmetry; apply andb_true_intro; split; apply N.leb_le; lia).
    reflexivity.
  - apply orb_prop in Hc as [Hc|Hc].
    2: { exfalso; apply andb_prop in Hc as [E1 E2]; apply N.leb_le in E1, E2.
         apply andb_false_iff in Er as [Er|Er]; apply N.leb_gt in Er; lia. }
    unfold id_class, is_ascii_digit; rewrite Hc; rewrite !orb_true_r; reflexivity.
Qed.

(** X1: when [uuid_hex] is lower-case hexadecimal, as [uuid4().hex] is,
    every character of the extracted invoice id is a letter, a digit or a
    hyphen in the sense of [[A-Z0-9\-]] under [re.IGNORECASE]: both an id
    captured from the text and the generated [INV-XXXXXXXX]. *)
Theorem invoice_id_chars (uuid_hex : str) (today : date) (text : str) :
  Forall (fun c => is_lower_hex c = true) uuid_hex ->
  id_chars (invoice_id (extract_invoice_data uuid_hex today text)).
Proof.
  intros Hu; unfold extract_invoice_data; cbv zeta; cbn [invoice_id].
  destruct (find_invoice_id invoice_patterns text) as [[|c g]|] eqn:E.
  2: { apply (find_invoice_id_chars _ _ _ invoice_patterns_groups_ok E). }
  all: cbv beta iota; unfold id_chars; apply Forall_app; split.
  1,3: repeat constructor.
  all: apply hex_upper_chars.
  all: rewrite <- (firstn_skipn 8 uuid_hex) in Hu; apply Forall_app in Hu; tauto.
Qed.

Lemma invoice_id_chars_witness :
  id_chars (invoice_id (extract_invoice_data sample_hex1 sample_today (str_of "Total: 5"))).
Proof. apply invoice_id_chars; unfold sample_hex1; repeat constructor. Defined.

(** ** Dates written with two-digit fields *)

Lemma ci_eq_refl (p : N) : ci_eq p p = true.
Proof. unfold ci_eq; rewrite N.eqb_refl; reflexivity. Qed.

Lemma mt_group_eq {A : Type} (r : rx) (s : str) (caps : list str)
    (k : str -> list str -> option A) :
  mt (RGroup r) s caps k =
  mt r s caps (fun s' c' => k s' (c' ++ [firstn (List.length s - List.length s') s])).
Proof. reflexivity. Qed.

Lemma mt_seq_eq {A : Type} (r1 r2 : rx) (s : str) (caps : list str)
    (k : str -> list str -> option A) :
  mt (RSeq r1 r2) s caps k = mt r1 s caps (fun s' c' => mt r2 s' c' k).
Proof. reflexivity. Qed.

Lemma mt_char_ok {A : Type} (c : N -> bool) (x : N) (s : str) (caps : list str)
    (k : str -> list str -> option A) (v : A) :
  c x = true -> k s caps = Some v -> mt (RChar c) (x :: s) caps k = Some v.
Proof. intros H1 H2; simpl; rewrite H1; exact H2. Qed.

Lemma d_alt {A : Type} (n : Z) (rest : str) (caps : list str)
    (k : str -> list str -> option A) (v : A) :
  (1 <= n <= 31)%Z -> k rest caps = Some v ->
  mt d_rx (pad_digits 2 n [] ++ rest) caps k = Some v.
Proof.
  intros Hn Hk.
  assert (Hc : (n = 1 \/ n = 2 \/ n = 3 \/ n = 4 \/ n = 5 \/ n = 6 \/ n = 7 \/ n = 8
            \/ n = 9 \/ n = 10 \/ n = 11 \/ n = 12 \/ n = 13 \/ n = 14 \/ n = 15
            \/ n = 16 \/ n = 17 \/ n = 18 \/ n = 19 \/ n = 20 \/ n = 21 \/ n = 22
            \/ n = 23 \/ n = 24 \/ n = 25 \/ n = 26 \/ n = 27 \/ n = 28 \/ n = 29
            \/ n = 30 \/ n = 31)%Z) by lia.
  repeat (destruct Hc as [->|Hc]; [cbn; rewrite Hk; reflexivity|]).
  subst; cbn; rewrite Hk; reflexivity.
Qed.

Lemma m_alt {A : Type} (n : Z) (rest : str) (caps : list str)
    (k : str -> list str -> option A) (v : A) :
  (1 <= n <= 12)%Z -> k rest caps = Some v ->
  mt m_rx (pad_digits 2 n [] ++ rest) caps k = Some v.
Proof.
  intros Hn Hk.
  assert (Hc : (n = 1 \/ n = 2 \/ n = 3 \/ n = 4 \/ n = 5 \/ n = 6 \/ n = 7 \/ n = 8
            \/ n = 9 \/ n = 10 \/ n = 11 \/ n = 12)%Z) by lia.
  repeat (destruct Hc as [->|Hc]; [cbn; rewrite Hk; reflexivity|]).
  subst; cbn; rewrite Hk; reflexivity.
Qed.

Lemma d_part {A : Type} (n : Z) (rest : str) (caps : list str)
    (k : str -> list str -> option A) (v : A) :
  (1 <= n <= 31)%Z -> k rest (caps ++ [pad_digits 2 n []]) = Some v ->
  mt (RGroup d_rx) (pad_digits 2 n [] ++ rest) caps k = Some v.
Proof.
  intros Hn Hk; rewrite mt_group_eq; apply d_alt; [exact Hn|].
  rewrite group_capture; exact Hk.
Qed.

Lemma m_part {A : Type} (n : Z) (rest : str) (caps : list str)
    (k : str -> list str -> option A) (v : A) :
  (1 <= n <= 12)%Z -> k rest (caps ++ [pad_digits 2 n []]) = Some v ->
  mt (RGroup m_rx) (pad_digits 2 n [] ++ rest) caps k = Some v.
Proof.
  intros Hn Hk; rewrite mt_group_eq; apply m_alt; [exact Hn|].
  rewrite group_capture; exact Hk.
Qed.

Lemma digit_char_ok (k : Z) : is_digit (Z.to_N (48 + k mod 10)) = true.
Proof.
  pose proof (Z.mod_pos_bound k 10 ltac:(lia)).
  unfold is_digit; rewrite decimal_zero_ascii; [reflexivity|lia].
Qed.

Lemma digit_val_char (k : Z) : digit_val (Z.to_N (48 + k mod 10)) = (k mod 10)%Z.
Proof.
  pose proof (Z.mod_pos_bound k 10 ltac:(lia)).
  unfold digit_val; rewrite decimal_zero_ascii by lia; lia.
Qed.

Lemma pad2_value (n : Z) : (0 <= n <= 99)%Z -> int_of (pad_digits 2 n []) = n.
Proof.
  intros Hn; cbn [pad_digits]; unfold int_of; cbn [List.filter].
  rewrite !digit_char_ok; unfold digits_value; cbn [fold_left].
  rewrite !digit_val_char; Z.div_mod_to_equations; lia.
Qed.

Lemma pad4_value (n : Z) : (0 <= n <= 9999)%Z -> int_of (pad_digits 4 n []) = n.
Proof.
  intros Hn; cbn [pad_digits]; unfold int_of; cbn [List.filter].
  rewrite !digit_char_ok; unfold digits_value; cbn [fold_left].
  rewrite !digit_val_char; Z.div_mod_to_equations; lia.
Qed.

Lemma y_part {A : Type} (n : Z) (caps : list str) (k : str -> list str -> option A) :
  mt (RGroup Y_rx) (pad_digits 4 n []) caps k = k [] (caps ++ [pad_digits 4 n []]).
Proof.
  cbn [pad_digits]; unfold Y_rx; cbn -[is_digit Z.to_N Z.add Z.div Z.modulo].
  rewrite !digit_char_ok; reflexivity.
Qed.

Lemma valid_date_ranges (d : date) :
  valid_date d = true ->
  (1 <= year d <= 9999 /\ 1 <= month d <= 12 /\ 1 <= day d <= 31)%Z.
Proof.
  unfold valid_date; intros H.
  repeat match goal with H : (_ && _)%bool = true |- _ => apply andb_prop in H as [? ?] end.
  repeat match goal with H : Z.leb _ _ = true |- _ => apply Z.leb_le in H end.
  assert (days_in_month (year d) (month d) <= 31)%Z.
  { unfold days_in_month; destruct (Z.eqb _ 2);
      [destruct (is_leap _)|destruct (_ || _)%bool]; lia. }
  lia.
Qed.

Lemma strptime_day_first_token (s : N) (d : date) :
  valid_date d = true ->
  strptime (date_token s DayFirst d) (mkLayout DayFirst s) = Some d.
Proof.
  intros Hv; destruct (valid_date_ranges d Hv) as (Hy & Hm & Hd).
  assert (Hr : re_match (layout_rx (mkLayout DayFirst s)) (date_token s DayFirst d)
               = Some ([], [pad_digits 2 (day d) []; pad_digits 2 (month d) [];
                            pad_digits 4 (year d) []])).
  { unfold re_match, layout_rx, date_token; cbn [order sep seqs].
    rewrite mt_seq_eq; apply d_part; [exact Hd|]; cbv beta.
    rewrite mt_seq_eq; apply mt_char_ok; [apply ci_eq_refl|].
    rewrite mt_seq_eq; apply m_part; [exact Hm|]; cbv beta.
    rewrite mt_seq_eq; apply mt_char_ok; [apply ci_eq_refl|].
    rewrite y_part; reflexivity. }
  unfold strptime; rewrite Hr; cbn [order].
  rewrite !pad2_value, pad4_value by lia.
  destruct d as [y m dd]; cbn [year month day] in *; rewrite Hv; reflexivity.
Qed.

Lemma strptime_month_first_token (s : N) (d : date) :
  valid_date d = true ->
  strptime (date_token s MonthFirst d) (mkLayout MonthFirst s) = Some d.
Proof.
  intros Hv; destruct (valid_date_ranges d Hv) as (Hy & Hm & Hd).
  assert (Hr : re_match (layout_rx (mkLayout MonthFirst s)) (date_token s MonthFirst d)
               = Some ([], [pad_digits 2 (month d) []; pad_digits 2 (day d) [];
                            pad_digits 4 (year d) []])).
  { unfold re_match, layout_rx, date_token; cbn [order sep seqs].
    rewrite mt_seq_eq; apply m_part; [exact Hm|]; cbv beta.
    rewrite mt_seq_eq; apply mt_char_ok; [apply ci_eq_refl|].
    rewrite mt_seq_eq; apply d_part; [exact Hd|]; cbv beta.
    rewrite mt_seq_eq; apply mt_char_ok; [apply ci_eq_refl|].
    rewrite y_part; reflexivity. }
  unfold strptime; rewrite Hr; cbn [order].
  rewrite !pad2_value, pad4_value by lia.
  destruct d as [y m dd]; cbn [year month day] in *; rewrite Hv; reflexivity.
Qed.

Ltac inv_accepts :=
  repeat match goal with
  | H : accepts (RAlt _ _) _ |- _ => inversion H; subst; clear H
  | H : accepts (RSeq _ _) _ |- _ => inversion H; subst; clear H
  | H : accepts (RChar _) _ |- _ => inversion H; subst; clear H
  | H : accepts (RGroup _) _ |- _ => inversion H; subst; clear H
  end.

Lemma accepts_d_length (u : str) :
  accepts d_rx u -> (List.length u = 1 \/ List.length u = 2)%nat.
Proof. unfold d_rx; cbn [alts]; intros H; inv_accepts; simpl; auto. Qed.

Lemma accepts_m_length (u : str) :
  accepts m_rx u -> (List.length u = 1 \/ List.length u = 2)%nat.
Proof. unfold m_rx; cbn [alts]; intros H; inv_accepts; simpl; auto. Qed.

Lemma accepts_m_two (p q : N) :
  accepts m_rx [p; q] -> p = 48 \/ (p = 49 /\ q <= 50).
Proof.
  unfold m_rx; cbn [alts]; intros H; inv_accepts;
    repeat match goal with
    | H : [_] ++ [_] = [_; _] |- _ => injection H; intros; subst; clear H
    | H : [_] = [_; _] |- _ => discriminate H
    end;
    unfold is_char, in_range in *;
    repeat match goal with
    | H : (_ && _)%bool = true |- _ => apply andb_prop in H as [? ?]
    | H : (_ =? _) = true |- _ => apply N.eqb_eq in H
    | H : (_ <=? _) = true |- _ => apply N.leb_le in H
    end; lia.
Qed.

Lemma ci_eq_sep_digit (p b : N) :
  In p date_seps -> is_digit b = true -> ci_eq p b = false.
Proof.
  intros Hp Hb; apply is_digit_range in Hb.
  assert (Hl : py_lower b = b).
  { unfold py_lower.
    replace ((65 <=? b) && (b <=? 90)) with false
      by (symmetry; apply andb_false_iff;
          destruct Hb as [Hb|Hb]; [left|right]; apply N.leb_gt; lia).
    replace (b =? 304) with false by (symmetry; apply N.eqb_neq; lia).
    replace (b =? 8490) with false by (symmetry; apply N.eqb_neq; lia).
    reflexivity. }
  unfold ci_eq; rewrite Hl.
  destruct Hp as [<-|[<-|[<-|[]]]]; cbv [py_lower];
    cbn [N.eqb Pos.eqb andb orb N.leb N.compare Pos.compare Pos.compare_cont];
    rewrite ?orb_false_r;
    apply N.eqb_neq; lia.
Qed.

Lemma ci_eq_seps (p q : N) :
  In p date_seps -> In q date_seps -> ci_eq p q = true -> p = q.
Proof.
  intros Hp Hq; destruct Hp as [<-|[<-|[<-|[]]]]; destruct Hq as [<-|[<-|[<-|[]]]];
    first [reflexivity | vm_compute; discriminate].
Qed.

(** What a layout accepts of a token [a1 a2 s b1 b2 s ...] of two-digit
    fields: its separator must be [s], and its second field [b1 b2]. *)
Lemma layout_two_digit_fields (f : layout) (a1 a2 s b1 b2 : N) (y pre rest : str) :
  In s date_seps -> In (sep f) date_seps -> is_digit a2 = true -> is_digit b2 = true ->
  a1 :: a2 :: s :: b1 :: b2 :: s :: y = pre ++ rest ->
  accepts (layout_rx f) pre ->
  sep f = s /\
  accepts (match order f with DayFirst => m_rx | MonthFirst => d_rx end) [b1; b2].
Proof.
  intros Hs Hf Ha Hb Ht Hp.
  unfold layout_rx in Hp; destruct (order f); cbn [seqs] in Hp;
    inversion Hp as [| ? ? u1 v1 Hq1 Hq2 | | | | | |]; subst;
    inversion Hq2 as [| ? ? u2 v2 Hq3 Hq4 | | | | | |]; subst;
    inversion Hq4 as [| ? ? u3 v3 Hq5 Hq6 | | | | | |]; subst;
    inversion Hq6 as [| ? ? u4 v4 Hq7 Hq8 | | | | | |]; subst;
    inversion Hq1 as [| | | | | | | ? ? Hr1]; subst;
    inversion Hq5 as [| | | | | | | ? ? Hr5]; subst;
    unfold ch in Hq3, Hq7;
    inversion Hq3 as [? c1 Hc1| | | | | | |]; subst;
    inversion Hq7 as [? c2 Hc2| | | | | | |]; subst;
    first [pose proof (accepts_d_length _ Hr1) as L1 | pose proof (accepts_m_length _ Hr1) as L1];
    first [pose proof (accepts_m_length _ Hr5) as L5 | pose proof (accepts_d_length _ Hr5) as L5];
    (destruct u1 as [|x1 [|x2 [|x3 u1]]]; simpl in L1; try lia);
    (destruct u3 as [|z1 [|z2 [|z3 u3]]]; simpl in L5; try lia);
    simpl in Ht; injection Ht; intros; subst;
    first [ rewrite ci_eq_sep_digit in Hc1 by assumption; discriminate
          | rewrite ci_eq_sep_digit in Hc2 by assumption; discriminate
          | split; [apply ci_eq_seps; assumption | assumption] ].
Qed.

Lemma strptime_two_digit_fields (f : layout) (a1 a2 s b1 b2 : N) (y : str) (d : date) :
  In s date_seps -> In (sep f) date_seps -> is_digit a2 = true -> is_digit b2 = true ->
  strptime (a1 :: a2 :: s :: b1 :: b2 :: s :: y) f = Some d ->
  sep f = s /\
  accepts (match order f with DayFirst => m_rx | MonthFirst => d_rx end) [b1; b2].
Proof.
  intros Hs Hf Ha Hb; unfold strptime.
  destruct (re_match (layout_rx f) _) as [[rest caps]|] eqn:E; [|discriminate].
  intros _; unfold re_match in E.
  destruct (mt_sound _ _ _ _ _ E) as [pre [rest' [caps' [Es [Hp _]]]]].
  exact (layout_two_digit_fields f a1 a2 s b1 b2 y pre rest' Hs Hf Ha Hb Es Hp).
Qed.

Lemma digit_char_Z (k : Z) : Z.of_N (Z.to_N (48 + k mod 10)) = (48 + k mod 10)%Z.
Proof. pose proof (Z.mod_pos_bound k 10 ltac:(lia)); rewrite Z2N.id; lia. Qed.

Lemma date_token_shape (s : N) (o : field_order) (d : date) :
  exists a1 a2 b1 b2,
    date_token s o d = a1 :: a2 :: s :: b1 :: b2 :: s :: pad_digits 4 (year d) [] /\
    is_digit a2 = true /\ is_digit b2 = true /\
    [b1; b2] = pad_digits 2 (match o with DayFirst => month d | MonthFirst => day d end) [].
Proof.
  destruct o; do 4 eexists; (split; [reflexivity|]); cbn [pad_digits];
    rewrite !digit_char_ok; auto.
Qed.

Lemma strptime_other_sep (s : N) (o : field_order) (d : date) (f : layout) :
  In s date_seps -> In (sep f) date_seps -> sep f <> s ->
  strptime (date_token s o d) f = None.
Proof.
  intros Hs Hf Hn.
  destruct (date_token_shape s o d) as (a1 & a2 & b1 & b2 & E & Ha & Hb & _); rewrite E.
  destruct (strptime _ f) as [d'|] eqn:Ep; [|reflexivity].
  exfalso; apply Hn; exact (proj1 (strptime_two_digit_fields f a1 a2 s b1 b2 _ d' Hs Hf Ha Hb Ep)).
Qed.

Lemma parse_layouts_day_first (s : N) (d : date) :
  In s date_seps -> valid_date d = true ->
  parse_layouts layouts (date_token s DayFirst d) = Some d.
Proof.
  intros Hs Hv.
  destruct Hs as [<-|[<-|[<-|[]]]]; unfold layouts; cbn [parse_layouts];
    repeat (rewrite strptime_other_sep by (first [discriminate | cbn; tauto]));
    rewrite strptime_day_first_token by exact Hv; reflexivity.
Qed.

Lemma strptime_day_first_late_day (s : N) (d : date) :
  In s date_seps -> (12 < day d <= 31)%Z ->
  strptime (date_token s MonthFirst d) (mkLayout DayFirst s) = None.
Proof.
  intros Hs Hd.
  destruct (date_token_shape s MonthFirst d) as (a1 & a2 & b1 & b2 & E & Ha & Hb & Eb); rewrite E.
  destruct (strptime _ _) as [d'|] eqn:Ep; [|reflexivity].
  exfalso.
  destruct (strptime_two_digit_fields (mkLayout DayFirst s) a1 a2 s b1 b2 _ d'
              Hs Hs Ha Hb Ep) as [_ Hm].
  cbn [order] in Hm; apply accepts_m_two in Hm.
  assert (Eb2 : [b1; b2] = [Z.to_N (48 + (day d / 10) mod 10); Z.to_N (48 + day d mod 10)])
    by (rewrite Eb; reflexivity).
  assert (E1 : Z.of_N b1 = (48 + (day d / 10) mod 10)%Z)
    by (rewrite <- digit_char_Z; exact (f_equal (fun l => Z.of_N (nth 0 l 0)) Eb2)).
  assert (E2 : Z.of_N b2 = (48 + day d mod 10)%Z)
    by (rewrite <- digit_char_Z; exact (f_equal (fun l => Z.of_N (nth 1 l 0)) Eb2)).
  destruct Hm as [->|[-> Hq]]; [|apply N2Z.inj_le in Hq; rewrite E2 in Hq];
    Z.div_mod_to_equations; lia.
Qed.

Lemma parse_layouts_month_first (s : N) (d : date) :
  In s date_seps -> valid_date d = true -> (12 < day d)%Z ->
  parse_layouts layouts (date_token s MonthFirst d) = Some d.
Proof.
  intros Hs Hv Hd; destruct (valid_date_ranges d Hv) as (_ & _ & Hr).
  destruct Hs as [<-|[<-|[<-|[]]]]; unfold layouts; cbn [parse_layouts];
    repeat (rewrite strptime_other_sep by (first [discriminate | cbn; tauto]));
    (rewrite strptime_day_first_late_day by (cbn; tauto || lia));
    rewrite strptime_month_first_token by exact Hv; reflexivity.
Qed.

Lemma find_due_date_first (pre post : list rx) (p : rx) (text tok : str) (d : date) :
  (forall q t, In q pre -> search_group1 q text = Some t -> parse_layouts layouts t = None) ->
  search_group1 p text = Some tok -> parse_layouts layouts tok = Some d ->
  find_due_date (pre ++ p :: post) text = Some d.
Proof.
  induction pre as [|q pre IH]; intros Hpre Hp Hd; cbn [find_due_date app].
  - rewrite Hp, Hd; reflexivity.
  - assert (Hpre' : forall q' t, In q' pre -> search_group1 q' text = Some t ->
                                 parse_layouts layouts t = None)
      by (intros q' t Hq; apply Hpre; right; exact Hq).
    destruct (search_group1 q text) as [t|] eqn:Eq.
    + rewrite (Hpre q t (or_introl eq_refl) Eq); exact (IH Hpre' Hp Hd).
    + exact (IH Hpre' Hp Hd).
Qed.

(** X2: when the first due-date pattern that captures a parseable token
    captures a valid date written day first ([DD/MM/YYYY], [DD-MM-YYYY] or
    [DD.MM.YYYY]), that date is the due date. *)
Theorem due_date_day_first_token (uuid_hex : str) (today : date) (text : str)
    (pre post : list rx) (p : rx) (s : N) (d : date) :
  date_patterns = pre ++ p :: post ->
  (forall q t, In q pre -> search_group1 q text = Some t -> parse_layouts layouts t = None) ->
  search_group1 p text = Some (date_token s DayFirst d) ->
  In s date_seps -> valid_date d = true ->
  due_date (extract_invoice_data uuid_hex today text) = d.
Proof.
  intros Hpat Hpre Hp Hs Hv; unfold extract_invoice_data; cbn [due_date].
  rewrite Hpat, (find_due_date_first pre post p text _ d Hpre Hp
                   (parse_layouts_day_first s d Hs Hv)).
  reflexivity.
Qed.

Lemma due_date_day_first_token_witness :
  due_date (extract_invoice_data sample_hex1 sample_today (str_of "Due: 05.11.2025"))
  = mkDate 2025 11 5.
Proof.
  apply (due_date_day_first_token sample_hex1 sample_today (str_of "Due: 05.11.2025")
           [] (tl date_patterns) (hd (RChar (fun _ => false)) date_patterns) 46).
  - reflexivity.
  - intros q t [].
  - vm_compute; reflexivity.
  - simpl; tauto.
  - reflexivity.
Defined.

(** X3: when the first due-date pattern that captures a parseable token
    captures a valid date written month first whose day is above 12
    ([MM/DD/YYYY] and the like), the day-first layout refuses it, the
    month-first layout with the same separator reads it, and that date is
    the due date. *)
Theorem due_date_month_first_late_day (uuid_hex : str) (today : date) (text : str)
    (pre post : list rx) (p : rx) (s : N) (d : date) :
  date_patterns = pre ++ p :: post ->
  (forall q t, In q pre -> search_group1 q text = Some t -> parse_layouts layouts t = None) ->
  search_group1 p text = Some (date_token s MonthFirst d) ->
  In s date_seps -> valid_date d = true -> (12 < day d)%Z ->
  due_date (extract_invoice_data uuid_hex today text) = d.
Proof.
  intros Hpat Hpre Hp Hs Hv Hd; unfold extract_invoice_data; cbn [due_date].
  rewrite Hpat, (find_due_date_first pre post p text _ d Hpre Hp
                   (parse_layouts_month_first s d Hs Hv Hd)).
  reflexivity.
Qed.

Lemma due_date_month_first_late_day_witness :
  due_date (extract_invoice_data sample_hex1 sample_today (str_of "Due by 11/25/2025"))
  = mkDate 2025 11 25.
Proof.
  apply (due_date_month_first_late_day sample_hex1 sample_today
           (str_of "Due by 11/25/2025")
           [] (tl date_patterns) (hd (RChar (fun _ => false)) date_patterns) 47).
  - reflexivity.
  - intros q t [].
  - vm_compute; reflexivity.
  - simpl; tauto.
  - reflexivity.
  - simpl; lia.
Defined.

(** X4: a date written month first whose swapped reading (day and month
    exchanged) is a valid date is read day first: when the first due-date
    pattern that captures a parseable token captures it, the due date is
    the swapped date. *)
Theorem due_date_month_first_swapped (uuid_hex : str) (today : date) (text : str)
    (pre post : list rx) (p : rx) (s : N) (d : date) :
  date_patterns = pre ++ p :: post ->
  (forall q t, In q pre -> search_group1 q text = Some t -> parse_layouts layouts t = None) ->
  search_group1 p text = Some (date_token s MonthFirst d) ->
  In s date_seps -> valid_date (mkDate (year d) (day d) (month d)) = true ->
  due_date (extract_invoice_data uuid_hex today text) = mkDate (year d) (day d) (month d).
Proof.
  intros Hpat Hpre Hp Hs Hv; unfold extract_invoice_data; cbn [due_date].
  rewrite Hpat, (find_due_date_first pre post p text _ _ Hpre Hp
                   (parse_layouts_day_first s _ Hs Hv)).
  reflexivity.
Qed.

Lemma due_date_month_first_swapped_witness :
  due_date (extract_invoice_data sample_hex1 sample_today (str_of "Due by 03/04/2025"))
  = mkDate 2025 4 3.
Proof.
  apply (due_date_month_first_swapped sample_hex1 sample_today
           (str_of "Due by 03/04/2025")
           [] (tl date_patterns) (hd (RChar (fun _ => false)) date_patterns) 47
           (mkDate 2025 3 4)).
  - reflexivity.
  - intros q t [].
  - vm_compute; reflexivity.
  - simpl; tauto.
  - reflexivity.
Defined.

(** ** The handler, path by path *)

Opaque extract_invoice_data.

Lemma str_eqb_eq (a b : str) : str_eqb a b = true <-> a = b.
Proof.
  revert b; induction a as [|x a IH]; intros [|y b]; simpl; split; intros H;
    try discriminate; try reflexivity.
  - apply andb_prop in H as [H1 H2]; apply N.eqb_eq in H1; apply IH in H2; subst; reflexivity.
  - injection H as -> ->; rewrite N.eqb_refl; apply IH; reflexivity.
Qed.

Lemma str_eqb_neq (a b : str) : a <> b -> str_eqb a b = false.
Proof.
  intros H; destruct (str_eqb a b) eqn:E; [|reflexivity].
  apply str_eqb_eq in E; contradiction.
Qed.

Lemma try_files (cfg : config) (w : world) url from f ih today (s : st) :
  files (snd (webhook_try cfg w url from f ih today s)) = files s \/
  files (snd (webhook_try cfg w url from f ih today s)) = f :: files s.
Proof.
  unfold webhook_try; unfold_monad; cbv beta iota zeta;
    repeat (split_world; cbv beta iota zeta); simpl in *; auto.
Qed.

Lemma finally_files (w : world) (f : str) (s : st) :
  files (snd (webhook_finally w f s)) = files s \/
  files (snd (webhook_finally w f s)) = List.filter (fun g => negb (str_eqb f g)) (files s).
Proof.
  unfold webhook_finally; unfold_monad.
  destruct (file_exists f s); [destruct (remove_ok w f)|]; simpl; auto.
Qed.

Lemma existsb_filter_other (g f : str) (fs : list str) :
  g <> f ->
  existsb (str_eqb g) (List.filter (fun h => negb (str_eqb f h)) fs) = existsb (str_eqb g) fs.
Proof.
  intros H; induction fs as [|h fs IH]; simpl; [reflexivity|].
  destruct (str_eqb f h) eqn:E; simpl.
  - apply str_eqb_eq in E; subst; rewrite str_eqb_neq by exact H; exact IH.
  - rewrite IH; reflexivity.
Qed.

Lemma other_files_untouched (cfg : config) (w : world) (media : option str)
    (from file_hex inv_hex : str) (today : date) (s0 : st) (g : str) :
  g <> scratch_name file_hex ->
  file_exists g (snd (whatsapp_webhook cfg w media from file_hex inv_hex today s0))
  = file_exists g s0.
Proof.
  intros Hg; unfold whatsapp_webhook.
  destruct media as [[|c u]|]; try reflexivity.
  pose proof (try_files cfg w (c :: u) from (scratch_name file_hex) inv_hex today s0) as Ht.
  destruct (webhook_try cfg w (c :: u) from (scratch_name file_hex) inv_hex today s0) as [r s1].
  cbn [snd] in Ht.
  pose proof (finally_files w (scratch_name file_hex) s1) as Hf.
  destruct (webhook_finally w (scratch_name file_hex) s1) as [u2 s2]; cbn [snd] in *.
  unfold file_exists.
  assert (E1 : existsb (str_eqb g) (files s1) = existsb (str_eqb g) (files s0)).
  { destruct Ht as [-> | ->]; [reflexivity|simpl; rewrite str_eqb_neq by exact Hg; reflexivity]. }
  destruct Hf as [-> | ->]; [exact E1|]. rewrite existsb_filter_other by exact Hg; exact E1.
Qed.

(** X5: the handler creates and removes no file other than its scratch
    file: whether any other file exists is the same before and after a
    request. *)
Theorem webhook_other_files_untouched (cfg : config) (w : world) (media : option str)
    (from file_hex inv_hex : str) (today : date) (s0 : st) (g : str) :
  g <> scratch_name file_hex ->
  file_exists g (snd (whatsapp_webhook cfg w media from file_hex inv_hex today s0))
  = file_exists g s0.
Proof. apply other_files_untouched. Qed.

(** X6: when a media reference is given and [os.remove] of the scratch file
    succeeds, the request leaves the disk as it found it, except that the
    scratch file no longer exists. *)
Theorem webhook_restores_disk (cfg : config) (w : world) (url from file_hex inv_hex : str)
    (today : date) (s0 : st) :
  url <> [] -> remove_ok w (scratch_name file_hex) = true ->
  forall g, file_exists g (snd (whatsapp_webhook cfg w (Some url) from file_hex inv_hex today s0))
            = file_exists g s0 && negb (str_eqb (scratch_name file_hex) g).
Proof.
  intros Hurl Hrm g.
  destruct (str_eqb (scratch_name file_hex) g) eqn:E.
  - apply str_eqb_eq in E; subst g; rewrite andb_false_r.
    destruct url as [|c u]; [congruence|]; unfold whatsapp_webhook.
    destruct (webhook_try cfg w (c :: u) from (scratch_name file_hex) inv_hex today s0) as [r s1].
    pose proof (finally_spec w (scratch_name file_hex) s1) as Hfin.
    destruct (webhook_finally w (scratch_name file_hex) s1) as [u2 s2].
    exact (proj2 Hfin Hrm).
  - rewrite andb_true_r; apply other_files_untouched.
    intros ->; rewrite (proj2 (str_eqb_eq _ _) eq_refl) in E; discriminate.
Qed.

Lemma webhook_restores_disk_witness :
  file_exists (scratch_name sample_hex1)
    (snd (whatsapp_webhook sample_config world_A
            (Some sample_url) sample_from sample_hex1 sample_hex2 sample_today empty_st))
  = file_exists (scratch_name sample_hex1) empty_st
    && negb (str_eqb (scratch_name sample_hex1) (scratch_name sample_hex1)).
Proof.
  apply (webhook_restores_disk sample_config world_A
           sample_url sample_from sample_hex1 sample_hex2 sample_today empty_st);
    [discriminate|reflexivity].
Defined.

Lemma webhook_other_files_untouched_witness :
  str_of "invoices.csv" <> scratch_name sample_hex1 /\
  file_exists (str_of "invoices.csv")
    (snd (whatsapp_webhook sample_config world_A (Some sample_url) sample_from
            sample_hex1 sample_hex2 sample_today (mkSt [str_of "invoices.csv"] [])))
  = true.
Proof.
  assert (Hg : str_of "invoices.csv" <> scratch_name sample_hex1)
    by (intros H; vm_compute in H; discriminate H).
  split; [exact Hg|].
  rewrite (webhook_other_files_untouched sample_config world_A (Some sample_url) sample_from
             sample_hex1 sample_hex2 sample_today (mkSt [str_of "invoices.csv"] [])
             (str_of "invoices.csv") Hg).
  vm_compute; reflexivity.
Defined.

Lemma str_eqb_refl (a : str) : str_eqb a a = true.
Proof. induction a as [|x a IH]; simpl; [reflexivity|rewrite N.eqb_refl; exact IH]. Qed.

Lemma file_exists_created (f : str) (fs : list str) (l : list event) :
  file_exists f (mkSt (f :: fs) l) = true.
Proof. unfold file_exists; simpl; rewrite str_eqb_refl; reflexivity. Qed.

Ltac created_contra :=
  match goal with
  | H : file_exists ?f (mkSt (?f :: _) _) = false |- _ =>
      rewrite file_exists_created in H; discriminate H
  end.

(** X7: the persistence gateway is invoked only for the request's sender,
    and only after the media was downloaded, written to the scratch file and
    recognised with text on its first page; the record saved is what the
    extractor makes of that text, and these are the first four effects. *)
Theorem save_after_pipeline (cfg : config) (w : world) (url from file_hex inv_hex : str)
    (today : date) (s0 : st) (inv : invoice) (sender : str) :
  url <> [] ->
  let f := scratch_name file_hex in
  let '(resp, s1) := whatsapp_webhook cfg w (Some url) from file_hex inv_hex today s0 in
  In (EvSave inv sender) (new_events s0 s1) ->
  sender = from /\
  exists content r lines rest,
    http_get w url (opt_str (TWILIO_ACCOUNT_SID cfg)) (opt_str (TWILIO_AUTH_TOKEN cfg))
      = DlOk content /\
    file_write w f content = WriteOk /\
    ocr w f = OcrReturns r /\ first_page r = Some lines /\
    inv = extract_invoice_data inv_hex today (ocr_text lines) /\
    new_events s0 s1 = [EvGet url; EvWrite f; EvOcr f; EvSave inv from] ++ rest.
Proof.
  intros Hurl; destruct url as [|c url]; [congruence|].
  run_webhook; new_events_simpl.
  all: intros Hin.
  all: repeat (destruct Hin as [Hin|Hin]; [try discriminate Hin|]);
       try contradiction.
  all: injection Hin as <- <-; split; [reflexivity|].
  all: do 4 eexists; repeat split; try eassumption; reflexivity.
Qed.

Lemma save_after_pipeline_witness :
  let '(resp, s1) :=
    whatsapp_webhook sample_config world_A (Some sample_url) sample_from sample_hex1
      sample_hex2 sample_today empty_st in
  In (EvSave invoice_A sample_from) (new_events empty_st s1) /\
  sample_from = sample_from /\
  exists content r lines rest,
    http_get world_A sample_url (opt_str (TWILIO_ACCOUNT_SID sample_config))
      (opt_str (TWILIO_AUTH_TOKEN sample_config)) = DlOk content /\
    file_write world_A (scratch_name sample_hex1) content = WriteOk /\
    ocr world_A (scratch_name sample_hex1) = OcrReturns r /\ first_page r = Some lines /\
    invoice_A = extract_invoice_data sample_hex2 sample_today (ocr_text lines) /\
    new_events empty_st s1 =
      [EvGet sample_url; EvWrite (scratch_name sample_hex1);
       EvOcr (scratch_name sample_hex1); EvSave invoice_A sample_from] ++ rest.
Proof.
  generalize (save_after_pipeline sample_config world_A sample_url sample_from sample_hex1
    sample_hex2 sample_today empty_st invoice_A sample_from ltac:(discriminate)).
  cbv zeta.
  destruct (whatsapp_webhook _ _ _ _ _ _ _ _) as [resp s1] eqn:E.
  intros H.
  assert (Hin : In (EvSave invoice_A sample_from) (new_events empty_st s1))
    by (vm_compute in E; injection E as _ <-; vm_compute;
        repeat (first [left; reflexivity | right])).
  exact (conj Hin (H Hin)).
Defined.

(** X8: a confirmation is sent only to the request's sender, only after the
    persistence gateway stored the record, and its message names the
    record's invoice id: in the handler's event trace the send comes right
    after the save of that record. *)
Theorem notification_after_save (cfg : config) (w : world) (media : option str)
    (from file_hex inv_hex : str) (today : date) (s0 : st) (to body : str) :
  let '(resp, s1) := whatsapp_webhook cfg w media from file_hex inv_hex today s0 in
  In (EvSend to body) (new_events s0 s1) ->
  to = from /\
  exists inv pre post,
    new_events s0 s1 = pre ++ EvSave inv from :: EvSend to body :: post /\
    db_insert w (DATABASE_URL cfg) inv from = true /\
    body = confirmation_body (invoice_id inv).
Proof.
  destruct media as [[|c url]|].
  1,3: unfold new_events; simpl; rewrite skipn_all; simpl; tauto.
  run_webhook; new_events_simpl.
  all: intros Hin.
  all: repeat (destruct Hin as [Hin|Hin]; [try discriminate Hin|]);
       try contradiction.
  all: injection Hin as <- <-; split; [reflexivity|].
  all: eexists _, [_; _; _], _;
       split; [reflexivity|split; [eassumption|reflexivity]].
Qed.

Lemma notification_after_save_witness :
  let '(resp, s1) :=
    whatsapp_webhook sample_config world_A (Some sample_url) sample_from sample_hex1
      sample_hex2 sample_today empty_st in
  In (EvSend sample_from (confirmation_body (str_of "INV-55"))) (new_events empty_st s1) /\
  sample_from = sample_from /\
  exists inv pre post,
    new_events empty_st s1
    = pre ++ EvSave inv sample_from
          :: EvSend sample_from (confirmation_body (str_of "INV-55")) :: post /\
    db_insert world_A (DATABASE_URL sample_config) inv sample_from = true /\
    confirmation_body (str_of "INV-55") = confirmation_body (invoice_id inv).
Proof.
  generalize (notification_after_save sample_config world_A (Some sample_url) sample_from
    sample_hex1 sample_hex2 sample_today empty_st sample_from
    (confirmation_body (str_of "INV-55"))).
  destruct (whatsapp_webhook _ _ _ _ _ _ _ _) as [resp s1] eqn:E.
  intros H.
  assert (Hin : In (EvSend sample_from (confirmation_body (str_of "INV-55")))
                   (new_events empty_st s1))
    by (vm_compute in E; injection E as _ <-; vm_compute;
        repeat (first [left; reflexivity | right])).
  exact (conj Hin (H Hin)).
Defined.

(** X9: a success response is returned only when the persistence gateway
    stored the record; it carries that record's id, its amount (finite) and
    its due date in ISO format. *)
Theorem success_only_when_saved (cfg : config) (w : world) (media : option str)
    (from file_hex inv_hex : str) (today : date) (s0 : st)
    (id : str) (amt : spec_float) (due : str) :
  let '(resp, s1) := whatsapp_webhook cfg w media from file_hex inv_hex today s0 in
  resp = JSONSuccess id amt due ->
  exists inv, In (EvSave inv from) (new_events s0 s1) /\
              db_insert w (DATABASE_URL cfg) inv from = true /\
              id = invoice_id inv /\ amt = total_amount inv /\
              due = date_iso (due_date inv) /\ is_finite_float amt = true.
Proof.
  destruct media as [[|c url]|].
  1,3: discriminate.
  run_webhook; new_events_simpl.
  all: intros Hr; try discriminate Hr.
  all: injection Hr as <- <- <-.
  all: eexists; split; [do 3 right; left; reflexivity|].
  all: repeat split; try eassumption.
  all: congruence.
Qed.

Lemma success_only_when_saved_witness :
  let '(resp, s1) :=
    whatsapp_webhook sample_config world_A (Some sample_url) sample_from sample_hex1
      sample_hex2 sample_today empty_st in
  resp = JSONSuccess (str_of "INV-55") float_250 (str_of "2025-05-01") /\
  exists inv, In (EvSave inv sample_from) (new_events empty_st s1) /\
              db_insert world_A (DATABASE_URL sample_config) inv sample_from = true /\
              str_of "INV-55" = invoice_id inv /\ float_250 = total_amount inv /\
              str_of "2025-05-01" = date_iso (due_date inv) /\
              is_finite_float float_250 = true.
Proof.
  generalize (success_only_when_saved sample_config world_A (Some sample_url) sample_from
    sample_hex1 sample_hex2 sample_today empty_st (str_of "INV-55") float_250
    (str_of "2025-05-01")).
  destruct (whatsapp_webhook _ _ _ _ _ _ _ _) as [resp s1] eqn:E.
  intros H.
  assert (Hr : resp = JSONSuccess (str_of "INV-55") float_250 (str_of "2025-05-01"))
    by (vm_compute in E; injection E as <- _; vm_compute; reflexivity).
  exact (conj Hr (H Hr)).
Defined.

(** X10: every response has status 200, 400 or 500. *)
Theorem response_status_codes (cfg : config) (w : world) (media : option str)
    (from file_hex inv_hex : str) (today : date) (s0 : st) :
  In (status_of (fst (whatsapp_webhook cfg w media from file_hex inv_hex today s0)))
     [200; 400; 500]%Z.
Proof.
  destruct media as [[|c url]|].
  1,3: simpl; tauto.
  run_webhook.
  all: simpl; tauto.
Qed.

(** X11: on one request, the media download, the recognition, the
    persistence gateway and the notification gateway are each invoked at
    most once. *)
Theorem gateways_called_at_most_once (cfg : config) (w : world) (media : option str)
    (from file_hex inv_hex : str) (today : date) (s0 : st) :
  let ev := new_events s0 (snd (whatsapp_webhook cfg w media from file_hex inv_hex today s0)) in
  (List.length (List.filter (fun e => match e with EvGet _ => true | _ => false end) ev) <= 1)%nat /\
  (List.length (List.filter (fun e => match e with EvOcr _ => true | _ => false end) ev) <= 1)%nat /\
  (List.length (List.filter (fun e => match e with EvSave _ _ => true | _ => false end) ev) <= 1)%nat /\
  (List.length (List.filter (fun e => match e with EvSend _ _ => true | _ => false end) ev) <= 1)%nat.
Proof.
  destruct media as [[|c url]|].
  1,3: unfold new_events; simpl; rewrite skipn_all; simpl; lia.
  cbv zeta; run_webhook; new_events_simpl.
  all: simpl; lia.
Qed.

(** X12: with credentials present and no file at the scratch name, a
    failed download answers 400 on a [requests] exception and 500 on any
    other exception; nothing but the download and the existence check of
    the cleanup happens. *)
Theorem download_failure_paths (cfg : config) (w : world) (url from file_hex inv_hex : str)
    (today : date) (s0 : st) :
  url <> [] ->
  let f := scratch_name file_hex in
  let '(resp, s1) := whatsapp_webhook cfg w (Some url) from file_hex inv_hex today s0 in
  falsy (TWILIO_ACCOUNT_SID cfg) || falsy (TWILIO_AUTH_TOKEN cfg) = false ->
  file_exists f s0 = false ->
  (http_get w url (opt_str (TWILIO_ACCOUNT_SID cfg)) (opt_str (TWILIO_AUTH_TOKEN cfg))
     = DlRequestError ->
   resp = JSONError 400 msg_download /\ new_events s0 s1 = [EvGet url; EvExists f]) /\
  (http_get w url (opt_str (TWILIO_ACCOUNT_SID cfg)) (opt_str (TWILIO_AUTH_TOKEN cfg))
     = DlOtherError ->
   resp = JSONError 500 msg_unexpected /\ new_events s0 s1 = [EvGet url; EvExists f]).
Proof.
  intros Hurl; destruct url as [|c url]; [congruence|].
  run_webhook; new_events_simpl.
  all: intros Hc Hx; try discriminate Hc; try discriminate Hx.
  all: split; intros Hd; try discriminate Hd;
       first [split; reflexivity | unfold file_exists in *; simpl in *; congruence].
Qed.

Lemma download_failure_paths_witness :
  let '(resp, s1) :=
    whatsapp_webhook sample_config (world_of DlRequestError WriteOk OcrRaises true true)
      (Some sample_url) sample_from sample_hex1 sample_hex2 sample_today empty_st in
  resp = JSONError 400 msg_download /\
  new_events empty_st s1 = [EvGet sample_url; EvExists (scratch_name sample_hex1)].
Proof.
  generalize (download_failure_paths sample_config
    (world_of DlRequestError WriteOk OcrRaises true true) sample_url sample_from
    sample_hex1 sample_hex2 sample_today empty_st ltac:(discriminate)).
  cbv zeta.
  destruct (whatsapp_webhook _ _ _ _ _ _ _ _) as [resp s1] eqn:E.
  intros H; destruct H as [H _]; [reflexivity|reflexivity|].
  apply H; reflexivity.
Defined.

(** X13: when recognition returns no result, an empty list of pages, or a
    first page that is [None] or empty, the handler answers 400; the effects
    are the download, the write, the recognition and the removal of the
    scratch file by the cleanup. *)
Theorem no_text_path (cfg : config) (w : world) (url from file_hex inv_hex : str)
    (today : date) (s0 : st) (content : list N) (r : option (list (option (list str)))) :
  url <> [] ->
  let f := scratch_name file_hex in
  let '(resp, s1) := whatsapp_webhook cfg w (Some url) from file_hex inv_hex today s0 in
  falsy (TWILIO_ACCOUNT_SID cfg) || falsy (TWILIO_AUTH_TOKEN cfg) = false ->
  http_get w url (opt_str (TWILIO_ACCOUNT_SID cfg)) (opt_str (TWILIO_AUTH_TOKEN cfg))
    = DlOk content ->
  file_write w f content = WriteOk ->
  ocr w f = OcrReturns r ->
  (r = None \/ r = Some [] \/ (exists rest, r = Some (None :: rest))
   \/ (exists rest, r = Some (Some [] :: rest))) ->
  resp = JSONError 400 msg_no_text /\
  new_events s0 s1 = [EvGet url; EvWrite f; EvOcr f; EvExists f; EvRemove f].
Proof.
  intros Hurl; destruct url as [|c url]; [congruence|].
  run_webhook; new_events_simpl.
  all: intros Hc Hd Hw Ho Hr; try discriminate Hc; try discriminate Hd;
       try discriminate Hw; try discriminate Ho.
  all: try (injection Hd as <-); try (injection Ho as <-).
  all: try (split; reflexivity).
  all: exfalso; try created_contra.
  all: destruct Hr as [->|[->|[[rest ->]|[rest ->]]]]; simpl in *; try discriminate.
  all: congruence.
Qed.

Lemma no_text_path_witness :
  let '(resp, s1) :=
    whatsapp_webhook sample_config (world_of (DlOk [137]) WriteOk (OcrReturns None) true true)
      (Some sample_url) sample_from sample_hex1 sample_hex2 sample_today empty_st in
  resp = JSONError 400 msg_no_text /\
  new_events empty_st s1 =
    [EvGet sample_url; EvWrite (scratch_name sample_hex1); EvOcr (scratch_name sample_hex1);
     EvExists (scratch_name sample_hex1); EvRemove (scratch_name sample_hex1)].
Proof.
  generalize (no_text_path sample_config
    (world_of (DlOk [137]) WriteOk (OcrReturns None) true true) sample_url sample_from
    sample_hex1 sample_hex2 sample_today empty_st [137] None ltac:(discriminate)).
  cbv zeta.
  destruct (whatsapp_webhook _ _ _ _ _ _ _ _) as [resp s1] eqn:E.
  intros H; apply H; [reflexivity|reflexivity|reflexivity|reflexivity|left; reflexivity].
Defined.

(** X14: when writing the scratch file raises, or recognition raises, the
    handler answers 500; the scratch file is removed when it was created. *)
Theorem write_or_ocr_failure_paths (cfg : config) (w : world)
    (url from file_hex inv_hex : str) (today : date) (s0 : st) (content : list N) :
  url <> [] ->
  let f := scratch_name file_hex in
  let '(resp, s1) := whatsapp_webhook cfg w (Some url) from file_hex inv_hex today s0 in
  falsy (TWILIO_ACCOUNT_SID cfg) || falsy (TWILIO_AUTH_TOKEN cfg) = false ->
  file_exists f s0 = false ->
  http_get w url (opt_str (TWILIO_ACCOUNT_SID cfg)) (opt_str (TWILIO_AUTH_TOKEN cfg))
    = DlOk content ->
  (forall created, file_write w f content = WriteFail created ->
   resp = JSONError 500 msg_unexpected /\
   new_events s0 s1 = [EvGet url; EvWrite f; EvExists f]
                      ++ (if created then [EvRemove f] else [])) /\
  (file_write w f content = WriteOk -> ocr w f = OcrRaises ->
   resp = JSONError 500 msg_unexpected /\
   new_events s0 s1 = [EvGet url; EvWrite f; EvOcr f; EvExists f; EvRemove f]).
Proof.
  intros Hurl; destruct url as [|c url]; [congruence|].
  run_webhook; new_events_simpl.
  all: intros Hc Hx Hd; try discriminate Hc; try discriminate Hx; try discriminate Hd.
  all: injection Hd as <-.
  all: split; [intros cr Hw|intros Hw Ho]; try discriminate Hw;
       try discriminate Ho.
  all: try (injection Hw; intros; subst).
  all: try match goal with
            | H1 : file_write ?a ?b ?d = _, H2 : file_write ?a ?b ?d = _ |- _ =>
                rewrite H1 in H2; injection H2; intros; subst
            end.
  all: first [split; reflexivity | created_contra
               | unfold file_exists in *; simpl in *; congruence].
Qed.

Lemma write_or_ocr_failure_paths_witness :
  let '(resp, s1) :=
    whatsapp_webhook sample_config
      (world_of (DlOk [137]) (WriteFail true) OcrRaises true true)
      (Some sample_url) sample_from sample_hex1 sample_hex2 sample_today empty_st in
  resp = JSONError 500 msg_unexpected /\
  new_events empty_st s1 =
    [EvGet sample_url; EvWrite (scratch_name sample_hex1);
     EvExists (scratch_name sample_hex1); EvRemove (scratch_name sample_hex1)].
Proof.
  generalize (write_or_ocr_failure_paths sample_config
    (world_of (DlOk [137]) (WriteFail true) OcrRaises true true) sample_url sample_from
    sample_hex1 sample_hex2 sample_today empty_st [137] ltac:(discriminate)).
  cbv zeta.
  destruct (whatsapp_webhook _ _ _ _ _ _ _ _) as [resp s1] eqn:E.
  intros H; destruct H as [H _]; [reflexivity|reflexivity|reflexivity|].
  apply (H true); reflexivity.
Defined.
